(** * Web log analyzer: the parsing and aggregation core

    A shallow embedding of [backend/analyzer/log_parser.py], of the data
    frame, the filters, the hourly traffic and the status distribution of
    [backend/analyzer/spark_analyzer.py], and of what
    [backend/analyzer/views.py] decides on an upload and on a preview, with
    the properties of the specification stated over it.

    Conventions of the embedding.
    - A Python [str] is a Rocq [string]; a character is a code point below
      256 (Latin-1), and the character predicates ([str.isspace],
      [str.isdigit], the classes of [re]) are the ones Python has on that
      range.
    - A Python call that can raise returns a [result]: [Ret v] or
      [Raise e].  A [try/except] is a match on the raised exception.
    - [int] of a string ignores the interpreter limit on the number of
      digits.
    - A dict with string keys is a [gmap string _]. *)

From Stdlib Require Import ZArith Ascii String List Bool Lia Sorted Btauto.
From stdpp Require Import base option list gmap strings pretty.

Local Open Scope string_scope.
Local Open Scope Z_scope.

(** ** Exceptions *)

Inductive exn :=
| ValueError | TypeError | IndexError | OverflowError | AttributeError.

Inductive result (A : Type) :=
| Ret (a : A)
| Raise (e : exn).
Arguments Ret {A} a.
Arguments Raise {A} e.

Definition rbind {A B} (m : result A) (f : A -> result B) : result B :=
  match m with
  | Ret a => f a
  | Raise e => Raise e
  end.

Notation "'let!' x ':=' m 'in' k" := (rbind m (fun x => k))
  (at level 10, x pattern, m at level 100, k at level 200).

(** ** Characters *)

(** The double quote and the single quote, by code. *)
Definition dquote : ascii := "034"%char.
Definition squote : ascii := "039"%char.
Definition tab : ascii := "009"%char.
Definition newline : ascii := "010"%char.

Definition code (a : ascii) : N := N_of_ascii a.

Definition between (lo hi : N) (a : ascii) : bool :=
  ((lo <=? code a) && (code a <=? hi))%N.

(** [str.isspace] and the class [\s] of [re] on code points below 256. *)
Definition is_space (a : ascii) : bool :=
  between 9 13 a || between 28 32 a
  || (code a =? 133)%N || (code a =? 160)%N.

(** The class [\d] of [re]: the decimal digits. *)
Definition is_decimal (a : ascii) : bool := between 48 57 a.

(** [str.isdigit] on one character: the decimal digits and the
    superscripts two, three and one. *)
Definition is_digit (a : ascii) : bool :=
  is_decimal a
  || (code a =? 178)%N || (code a =? 179)%N || (code a =? 185)%N.

(** The class [\w] of [re]: alphanumeric characters and the underscore. *)
Definition is_word (a : ascii) : bool :=
  is_digit a || between 65 90 a || between 97 122 a || (code a =? 95)%N
  || (code a =? 170)%N || (code a =? 181)%N || (code a =? 186)%N
  || between 188 190 a || between 192 214 a || between 216 246 a
  || between 248 255 a.

(** [str.lower] on one character. *)
Definition lower_char (a : ascii) : ascii :=
  if between 65 90 a || between 192 214 a || between 216 222 a
  then ascii_of_N (code a + 32)
  else a.

(** ** Strings *)

Fixpoint str_map (f : ascii -> ascii) (s : string) : string :=
  match s with
  | EmptyString => EmptyString
  | String a s' => String (f a) (str_map f s')
  end.

(** [s.lower()] *)
Definition lower (s : string) : string := str_map lower_char s.

Fixpoint str_all (p : ascii -> bool) (s : string) : bool :=
  match s with
  | EmptyString => true
  | String a s' => p a && str_all p s'
  end.

Definition is_empty (s : string) : bool :=
  match s with EmptyString => true | _ => false end.

(** [s.isdigit()]: at least one character, and all of them digits. *)
Definition isdigit (s : string) : bool :=
  negb (is_empty s) && str_all is_digit s.

(** [s.lstrip(chars)] *)
Fixpoint lstrip_with (p : ascii -> bool) (s : string) : string :=
  match s with
  | EmptyString => EmptyString
  | String a s' => if p a then lstrip_with p s' else s
  end.

(** [s.rstrip(chars)] *)
Fixpoint rstrip_with (p : ascii -> bool) (s : string) : string :=
  match s with
  | EmptyString => EmptyString
  | String a s' =>
      match rstrip_with p s' with
      | EmptyString => if p a then EmptyString else String a EmptyString
      | t => String a t
      end
  end.

Definition strip_with (p : ascii -> bool) (s : string) : string :=
  rstrip_with p (lstrip_with p s).

(** [s.strip()] *)
Definition strip (s : string) : string := strip_with is_space s.

Definition is_quote (a : ascii) : bool :=
  Ascii.eqb a dquote || Ascii.eqb a squote.

(** [s.strip(chars)] with the two quote characters as [chars]. *)
Definition strip_quotes (s : string) : string := strip_with is_quote s.

(** [sub in s] *)
Fixpoint contains (sub s : string) : bool :=
  String.prefix sub s
  || match s with
     | EmptyString => false
     | String _ s' => contains sub s'
     end.

(** [c in s] for a single character. *)
Fixpoint has_char (c : ascii) (s : string) : bool :=
  match s with
  | EmptyString => false
  | String a s' => Ascii.eqb a c || has_char c s'
  end.

(** [s.split(sep)] for a separator of one character. *)
Fixpoint split_on (sep : ascii) (s : string) : list string :=
  match s with
  | EmptyString => [EmptyString]
  | String a s' =>
      if Ascii.eqb a sep then EmptyString :: split_on sep s'
      else match split_on sep s' with
           | t :: ts => String a t :: ts
           | [] => [String a EmptyString]
           end
  end.

(** [s[:n]] *)
Fixpoint str_take (n : nat) (s : string) : string :=
  match n, s with
  | S n', String a s' => String a (str_take n' s')
  | _, _ => EmptyString
  end.

(** [s[n:]] *)
Fixpoint str_drop (n : nat) (s : string) : string :=
  match n, s with
  | S n', String _ s' => str_drop n' s'
  | _, _ => s
  end.

(** [s.replace(c, by)] for a single character [c]. *)
Fixpoint replace_char (c : ascii) (by_ : string) (s : string) : string :=
  match s with
  | EmptyString => EmptyString
  | String a s' =>
      if Ascii.eqb a c then by_ ++ replace_char c by_ s'
      else String a (replace_char c by_ s')
  end.

(** ** [int] of a string *)

Definition digit_val (a : ascii) : Z := Z.of_N (code a) - 48.

(** Decimal digits, single underscores allowed between two digits.
    [prev] tells that the previous character was a digit. *)
Fixpoint int_body (prev : bool) (acc : Z) (s : string) : option Z :=
  match s with
  | EmptyString => if prev then Some acc else None
  | String a s' =>
      if is_decimal a then int_body true (10 * acc + digit_val a) s'
      else if Ascii.eqb a "_" && prev then
             match s' with
             | String b _ => if is_decimal b then int_body false acc s'
                             else None
             | EmptyString => None
             end
           else None
  end.

(** The blanks [int] drops around a number: those of [str.isspace] but
    for the four separators 28 to 31. *)
Definition is_int_space (a : ascii) : bool :=
  between 9 13 a || (code a =? 32)%N || (code a =? 133)%N || (code a =? 160)%N.

(** [int(s)] for a [str] argument: surrounding blanks are dropped, one
    sign is accepted; anything else raises [ValueError]. *)
Definition py_int (s : string) : result Z :=
  let t := strip_with is_int_space s in
  let '(sign, body) :=
    match t with
    | String "+" r => (1, r)
    | String "-" r => (-1, r)
    | _ => (1, t)
    end in
  match int_body false 0 body with
  | Some n => Ret (sign * n)
  | None => Raise ValueError
  end.

(** ** Regular expressions of [re]

    The patterns of the parser use literal characters, character classes,
    greedy repetition of a class, capturing groups, concatenation and the
    greedy optional non-capturing group.  [rmatch] is the backtracking
    matcher of [re] on that fragment, in continuation-passing style: the
    first alternative in priority order that lets the rest of the pattern
    succeed is the match. *)

Inductive cclass :=
| c_space                 (* \s *)
| c_nonspace              (* \S *)
| c_digit                 (* \d *)
| c_word                  (* \w *)
| c_not (c : ascii)       (* [^c] *)
| c_oneof (l : list ascii).

Definition in_class (k : cclass) (a : ascii) : bool :=
  match k with
  | c_space => is_space a
  | c_nonspace => negb (is_space a)
  | c_digit => is_decimal a
  | c_word => is_word a
  | c_not c => negb (Ascii.eqb a c)
  | c_oneof l => existsb (Ascii.eqb a) l
  end.

Inductive regex :=
| r_bol                          (* ^ *)
| r_eps
| r_chr (c : ascii)
| r_cls (k : cclass)
| r_star (k : cclass)            (* k* *)
| r_plus (k : cclass)            (* k+ *)
| r_grp (n : nat) (r : regex)    (* group number n+1 *)
| r_cat (r1 r2 : regex)
| r_opt (r : regex).             (* (?:r)? and (r)? *)

Definition r_seq (l : list regex) : regex := foldr r_cat r_eps l.

(** The captured groups: [None] for a group that took no part. *)
Abbreviation caps := (list (option string)).

Section Matcher.
Context {A : Type}.

(** Greedy [p*]: the longest run first, then shorter ones. *)
Fixpoint rep_star (p : ascii -> bool) (pos : nat) (s : string)
    (k : nat -> string -> option A) : option A :=
  match s with
  | String a s' =>
      if p a then
        match rep_star p (S pos) s' k with
        | Some x => Some x
        | None => k pos s
        end
      else k pos s
  | EmptyString => k pos s
  end.

(** [rmatch s0 r pos s c k]: match [r] at offset [pos] of the subject
    [s0], where [s] is what is left of [s0] from [pos] on. *)
Fixpoint rmatch (s0 : string) (r : regex) (pos : nat) (s : string)
    (c : caps) (k : nat -> string -> caps -> option A) : option A :=
  match r with
  | r_bol => if (pos =? 0)%nat then k pos s c else None
  | r_eps => k pos s c
  | r_chr a =>
      match s with
      | String b s' => if Ascii.eqb b a then k (S pos) s' c else None
      | EmptyString => None
      end
  | r_cls cl =>
      match s with
      | String b s' => if in_class cl b then k (S pos) s' c else None
      | EmptyString => None
      end
  | r_star cl => rep_star (in_class cl) pos s (fun p' s' => k p' s' c)
  | r_plus cl =>
      match s with
      | String b s' =>
          if in_class cl b
          then rep_star (in_class cl) (S pos) s' (fun p' s' => k p' s' c)
          else None
      | EmptyString => None
      end
  | r_grp n r1 =>
      rmatch s0 r1 pos s c
        (fun p' s' c' =>
           k p' s' (<[n := Some (substring pos (p' - pos) s0)]> c'))
  | r_cat r1 r2 =>
      rmatch s0 r1 pos s c (fun p' s' c' => rmatch s0 r2 p' s' c' k)
  | r_opt r1 =>
      match rmatch s0 r1 pos s c k with
      | Some x => Some x
      | None => k pos s c
      end
  end.
End Matcher.

Fixpoint ngroups (r : regex) : nat :=
  match r with
  | r_grp _ r1 => S (ngroups r1)
  | r_cat r1 r2 => (ngroups r1 + ngroups r2)%nat
  | r_opt r1 => ngroups r1
  | _ => 0%nat
  end.


(** [pattern.match(s)] followed by [.groups()]: [None] when there is no
    match, else one entry per group of the pattern. *)
Definition re_match (r : regex) (s : string) : option caps :=
  rmatch s r 0 s (replicate (ngroups r) None) (fun _ _ c => Some c).

(** ** The patterns of the parser *)

Definition APACHE_COMBINED_REGEX : regex :=
  r_seq [ r_bol; r_grp 0 (r_plus c_nonspace); r_plus c_space;
          r_plus c_nonspace; r_plus c_space;
          r_plus c_nonspace; r_plus c_space;
          r_chr "["; r_grp 1 (r_plus (c_not "]")); r_chr "]";
          r_plus c_space;
          r_chr dquote; r_grp 2 (r_plus c_nonspace); r_plus c_space;
          r_grp 3 (r_plus c_nonspace); r_star c_space;
          r_grp 4 (r_star c_nonspace); r_chr dquote;
          r_plus c_space; r_grp 5 (r_plus c_digit);
          r_plus c_space; r_grp 6 (r_plus c_nonspace);
          r_opt (r_seq [ r_plus c_space;
                         r_chr dquote; r_grp 7 (r_star (c_not dquote));
                         r_chr dquote; r_plus c_space;
                         r_chr dquote; r_grp 8 (r_star (c_not dquote));
                         r_chr dquote ]);
          r_opt (r_seq [ r_plus c_space; r_grp 9 (r_plus c_digit) ]) ].

Definition NGINX_REGEX : regex :=
  r_seq [ r_bol; r_grp 0 (r_plus c_nonspace); r_plus c_space;
          r_chr "-"; r_plus c_space;
          r_chr "-"; r_plus c_space;
          r_chr "["; r_grp 1 (r_plus (c_not "]")); r_chr "]";
          r_plus c_space;
          r_chr dquote; r_grp 2 (r_plus c_nonspace); r_plus c_space;
          r_grp 3 (r_plus c_nonspace); r_star c_space;
          r_grp 4 (r_star c_nonspace); r_chr dquote;
          r_plus c_space; r_grp 5 (r_plus c_digit);
          r_plus c_space; r_grp 6 (r_plus c_nonspace);
          r_opt (r_seq [ r_plus c_space;
                         r_chr dquote; r_grp 7 (r_star (c_not dquote));
                         r_chr dquote; r_plus c_space;
                         r_chr dquote; r_grp 8 (r_star (c_not dquote));
                         r_chr dquote ]);
          r_opt (r_seq [ r_plus c_space; r_grp 9 (r_plus c_digit) ]) ].

(** The pattern of [parse_apache_timestamp]. *)
Definition TIMESTAMP_REGEX : regex :=
  r_seq [ r_grp 0 (r_plus c_digit); r_chr "/";
          r_grp 1 (r_plus c_word); r_chr "/";
          r_grp 2 (r_plus c_digit); r_chr ":";
          r_grp 3 (r_plus c_digit); r_chr ":";
          r_grp 4 (r_plus c_digit); r_chr ":";
          r_grp 5 (r_plus c_digit); r_star c_space;
          r_opt (r_grp 6 (r_seq [ r_cls (c_oneof ["+"; "-"]%char);
                                  r_plus c_digit ])) ].

(** ** [datetime]

    A naive [datetime] value.  The constructor of Python rejects fields
    out of range, so a value carries the evidence that its fields passed
    the check. *)

Definition is_leap (y : Z) : bool :=
  (y mod 4 =? 0) && (negb (y mod 100 =? 0) || (y mod 400 =? 0)).

Definition days_in_month (y m : Z) : Z :=
  if m =? 2 then (if is_leap y then 29 else 28)
  else if (m =? 4) || (m =? 6) || (m =? 9) || (m =? 11) then 30
  else 31.

Definition in_range (lo hi x : Z) : bool := (lo <=? x) && (x <=? hi).

Definition fields_ok (y mo d h mi s : Z) : bool :=
  in_range 1 9999 y && in_range 1 12 mo
  && in_range 1 (days_in_month y mo) d
  && in_range 0 23 h && in_range 0 59 mi && in_range 0 59 s.

Record datetime := mk_dt {
  year : Z; month : Z; day : Z; hour : Z; minute : Z; second : Z;
  dt_ok : fields_ok year month day hour minute second = true
}.

Definition check (b : bool) : {b = true} + {b = false} :=
  match b with
  | true => left eq_refl
  | false => right eq_refl
  end.

(** The arguments of the constructor are converted to C [int] first. *)
Definition fits_c_int (x : Z) : bool := in_range (-2147483648) 2147483647 x.

(** [datetime(y, mo, d, h, mi, s)] *)
Definition new_datetime (y mo d h mi s : Z) : result datetime :=
  if forallb fits_c_int [y; mo; d; h; mi; s] then
    match check (fields_ok y mo d h mi s) with
    | left ok => Ret (mk_dt y mo d h mi s ok)
    | right _ => Raise ValueError
    end
  else Raise OverflowError.

Definition dt_fields (t : datetime) : list Z :=
  [year t; month t; day t; hour t; minute t; second t].

Fixpoint lex_leb (a b : list Z) : bool :=
  match a, b with
  | x :: a', y :: b' => (x <? y) || ((x =? y) && lex_leb a' b')
  | _, _ => true
  end.

(** [a <= b] on two naive values. *)
Definition dt_leb (a b : datetime) : bool := lex_leb (dt_fields a) (dt_fields b).

(** ** log_parser.py *)

Record ParsedLogEntry := mk_entry {
  e_ip : string;
  e_timestamp : option datetime;
  e_method : string;
  e_path : string;
  e_protocol : string;
  e_status : Z;
  e_size : Z;
  e_raw_line : string
}.

Definition MONTH_MAP : gmap string Z :=
  list_to_map
    [ ("Jan", 1); ("Feb", 2); ("Mar", 3); ("Apr", 4); ("May", 5); ("Jun", 6);
      ("Jul", 7); ("Aug", 8); ("Sep", 9); ("Oct", 10); ("Nov", 11);
      ("Dec", 12) ].

Definition CSV_HEADER_KEYWORDS : list string :=
  [ "ip"; "address"; "timestamp"; "date"; "method"; "url"; "path"; "status";
    "size"; "bytes" ].

(** The body of the [try] of [parse_apache_timestamp], once the pattern
    has matched. *)
Definition timestamp_of_groups (g : caps) : result (option datetime) :=
  match g with
  | [Some day; Some month; Some year; Some hour; Some minute; Some second; _] =>
      let month_num := default 1 (MONTH_MAP !! month) in
      let! y := py_int year in
      let! d := py_int day in
      let! h := py_int hour in
      let! mi := py_int minute in
      let! s := py_int second in
      let! t := new_datetime y month_num d h mi s in
      Ret (Some t)
  | _ => Raise TypeError
  end.

(** [parse_apache_timestamp]: [ValueError] and [TypeError] are caught and
    give [None]; any other exception goes to the caller. *)
Definition parse_apache_timestamp (timestamp_str : string)
  : result (option datetime) :=
  match re_match TIMESTAMP_REGEX timestamp_str with
  | Some g =>
      match timestamp_of_groups g with
      | Raise ValueError | Raise TypeError => Ret None
      | r => r
      end
  | None => Ret None
  end.

(** [int(tok) if tok.isdigit() else 0] *)
Definition digits_or_zero (tok : string) : result Z :=
  if isdigit tok then py_int tok else Ret 0.

(** [x or d] on strings *)
Definition or_default (x d : string) : string :=
  if is_empty x then d else x.

(** The body of the loop of [parse_log_line] after the tuple assignment,
    on the seven names it binds. *)
Definition entry_of_fields
    (ip timestamp_str method path protocol status size line : string)
  : result (option ParsedLogEntry) :=
  let! parsed_size :=
    if String.eqb size "-" then Ret 0 else digits_or_zero size in
  if String.eqb size "-" then Ret None
  else
    let! ts := parse_apache_timestamp timestamp_str in
    let! st := digits_or_zero status in
    Ret (Some (mk_entry ip ts (or_default method "GET") (or_default path "/")
                 (or_default protocol "HTTP/1.1") st parsed_size line)).

(** The tuple assignment
    [ip, timestamp_str, method, path, protocol, status, size = match.groups()]:
    it needs exactly seven values and raises [ValueError] otherwise.  A
    name bound to [None] fails at its first method call. *)
Definition unpack7 (g : caps)
  : result (string * string * string * string * string * string * string) :=
  match g with
  | [a; b; c; d; e; f; h] =>
      match a, b, c, d, e, f, h with
      | Some a, Some b, Some c, Some d, Some e, Some f, Some h =>
          Ret (a, b, c, d, e, f, h)
      | _, _, _, _, _, _, _ => Raise AttributeError
      end
  | _ => Raise ValueError
  end.

(** The loop [for pattern in ...] of [parse_log_line] on the stripped
    line. *)
Fixpoint try_patterns (patterns : list regex) (line : string)
  : result (option ParsedLogEntry) :=
  match patterns with
  | [] => Ret None
  | pattern :: rest =>
      match re_match pattern line with
      | Some groups =>
          let! fields := unpack7 groups in
          let '(ip, timestamp_str, method, path, protocol, status, size) :=
            fields in
          entry_of_fields ip timestamp_str method path protocol status size
            line
      | None => try_patterns rest line
      end
  end.

Definition parse_log_line_with (patterns : list regex) (line : string)
  : result (option ParsedLogEntry) :=
  let line := strip line in
  if is_empty line then Ret None else try_patterns patterns line.

Definition parse_log_line (line : string) : result (option ParsedLogEntry) :=
  parse_log_line_with [APACHE_COMBINED_REGEX; NGINX_REGEX] line.

Definition detect_csv_format (first_line : string) : bool :=
  let lower_line := lower first_line in
  existsb (fun keyword => contains keyword lower_line) CSV_HEADER_KEYWORDS
  || has_char "," first_line.

(** [values[i]] *)
Definition index (values : list string) (i : nat) : result string :=
  match values !! i with
  | Some v => Ret v
  | None => Raise IndexError
  end.

(** The diagnostic of a line that gave no entry. *)
Definition unable_to_parse (i : nat) (line : string) : string :=
  "Line " ++ pretty i ++ ": Unable to parse - " ++ String dquote EmptyString
  ++ str_take 60 line ++ "..." ++ String dquote EmptyString.

Definition no_fields_message : string :=
  "CSV does not contain recognizable log fields (ip, path, status, etc.)".

(** One step of the loop of [detect_csv_fields]: the [if]/[elif] chain on
    the normalised header [h] of column [i]. *)
Definition assign_column (field_map : gmap string nat) (i : nat)
    (header : string) : gmap string nat :=
  let h := strip_quotes (strip (lower header)) in
  if contains "ip" h || contains "address" h || contains "client" h then
    <["ip" := i]> field_map
  else if contains "time" h || contains "date" h then
    <["timestamp" := i]> field_map
  else if contains "method" h || contains "verb" h then
    <["method" := i]> field_map
  else if contains "path" h || contains "url" h || contains "uri" h
          || contains "request" h then
    <["path" := i]> field_map
  else if contains "status" h || contains "code" h || contains "response" h then
    <["status" := i]> field_map
  else if contains "size" h || contains "bytes" h || contains "length" h then
    <["size" := i]> field_map
  else field_map.

(** [for i, header in enumerate(headers)] from index [i] on. *)
Fixpoint detect_from (i : nat) (headers : list string)
    (field_map : gmap string nat) : gmap string nat :=
  match headers with
  | [] => field_map
  | header :: rest => detect_from (S i) rest (assign_column field_map i header)
  end.

Definition detect_csv_fields (headers : list string) : gmap string nat :=
  detect_from 0 headers ∅.

(** [delimiter = '\t' if '\t' in first_line else ','] *)
Definition csv_delimiter (first_line : string) : ascii :=
  if has_char tab first_line then tab else ","%char.

(** [headers = [h.strip() for h in first_line.split(delimiter)]] *)
Definition csv_headers (first_line : string) : list string :=
  map strip (split_on (csv_delimiter first_line) first_line).

Section Parser.
(** [datetime.fromisoformat] on a [str], taken as given: [None] stands
    for [ValueError]. *)
Variable fromisoformat : string -> option datetime.

(** The timestamp of a row: ISO first, the Apache shape on failure. *)
Definition csv_timestamp (ts_str : string) : result (option datetime) :=
  match fromisoformat (replace_char "Z" "+00:00" ts_str) with
  | Some t => Ret (Some t)
  | None => parse_apache_timestamp ts_str
  end.

(** The body of the [try] of [parse_csv_line]. *)
Definition csv_line_body (values : list string)
    (field_map : gmap string nat) (line : string)
  : result (option ParsedLogEntry) :=
  let! ip :=
    match field_map !! "ip" with
    | Some i => index values i
    | None => Ret "unknown"
    end in
  let! timestamp :=
    match field_map !! "timestamp" with
    | Some i => let! ts_str := index values i in csv_timestamp ts_str
    | None => Ret None
    end in
  let! method :=
    match field_map !! "method" with
    | Some i => index values i
    | None => Ret "GET"
    end in
  let! path :=
    match field_map !! "path" with
    | Some i => index values i
    | None => Ret "/"
    end in
  let! status :=
    match field_map !! "status" with
    | Some i =>
        let! status_str := index values i in
        digits_or_zero status_str
    | None => Ret 0
    end in
  let! size :=
    match field_map !! "size" with
    | Some i =>
        let! size_str := index values i in
        if negb (is_empty size_str) && negb (String.eqb size_str "-") then
          let! n := digits_or_zero size_str in
          Ret (Some n)
        else Ret None
    | None => Ret (Some 0)
    end in
  match size with
  | None => Ret None
  | Some size =>
      if String.eqb ip "unknown" && String.eqb path "/" && (status =? 0)
      then Ret None
      else Ret (Some (mk_entry ip timestamp method path "HTTP/1.1" status
                        size line))
  end.

(** [parse_csv_line]: [IndexError] and [ValueError] give [None]. *)
Definition parse_csv_line (values : list string)
    (field_map : gmap string nat) (line : string)
  : result (option ParsedLogEntry) :=
  match csv_line_body values field_map line with
  | Raise IndexError | Raise ValueError => Ret None
  | r => r
  end.

(** The loop over the data rows of [parse_csv_file]; the row in hand is
    row number [i] of the file. *)
Fixpoint csv_rows (delimiter : ascii) (field_map : gmap string nat)
    (i : nat) (lines : list string)
    (entries : list ParsedLogEntry) (errors : list string)
  : result (list ParsedLogEntry * list string) :=
  match lines with
  | [] => Ret (entries, errors)
  | line :: rest =>
      let line := strip line in
      if is_empty line then
        csv_rows delimiter field_map (S i) rest entries errors
      else
        let values :=
          map (fun v => strip_quotes (strip v)) (split_on delimiter line) in
        let! entry := parse_csv_line values field_map line in
        match entry with
        | Some e =>
            csv_rows delimiter field_map (S i) rest (entries ++ [e]) errors
        | None =>
            csv_rows delimiter field_map (S i) rest entries
              (errors ++ [unable_to_parse i line])
        end
  end.

Definition parse_csv_file (lines : list string)
  : result (list ParsedLogEntry * list string) :=
  match lines with
  | [] => Ret ([], ["Empty file"])
  | first_line :: data =>
      let delimiter := csv_delimiter first_line in
      let headers := csv_headers first_line in
      let field_map := detect_csv_fields headers in
      if bool_decide (field_map !! "ip" = None)
         && bool_decide (field_map !! "path" = None)
      then Ret ([], [no_fields_message])
      else csv_rows delimiter field_map 2 data [] []
  end.

(** The loop of [parse_log_file] over the lines of a file that is not
    delimited; the line in hand is line number [i]. *)
Fixpoint log_lines (i : nat) (lines : list string)
    (entries : list ParsedLogEntry) (errors : list string)
  : result (list ParsedLogEntry * list string) :=
  match lines with
  | [] => Ret (entries, errors)
  | line :: rest =>
      let! entry := parse_log_line line in
      match entry with
      | Some e => log_lines (S i) rest (entries ++ [e]) errors
      | None => log_lines (S i) rest entries (errors ++ [unable_to_parse i line])
      end
  end.

(** The lines of [content] that are not blank. *)
Definition nonblank_lines (content : string) : list string :=
  List.filter (fun line => negb (is_empty (strip line)))
    (split_on newline content).

Definition parse_log_file (content : string)
  : result (list ParsedLogEntry * list string) :=
  let lines := nonblank_lines content in
  match lines with
  | [] => Ret ([], ["Empty file"])
  | first :: _ =>
      if detect_csv_format first then parse_csv_file lines
      else log_lines 1 lines [] []
  end.
End Parser.

(** An instance of [fromisoformat] for running examples.  It reads the
    shapes [YYYY-MM-DD] and [YYYY-MM-DD?HH:MM:SS], where [?] is any one
    character, as [datetime.fromisoformat] reads them; the other forms
    that function accepts are not read. *)
Definition two_digits (n : nat) : regex :=
  r_grp n (r_seq [r_cls c_digit; r_cls c_digit]).

Definition iso_date_regex : regex :=
  r_seq [ r_grp 0 (r_seq [r_cls c_digit; r_cls c_digit; r_cls c_digit;
                          r_cls c_digit]); r_chr "-";
          two_digits 1; r_chr "-"; two_digits 2 ].

Definition iso_time_regex : regex :=
  r_seq [ two_digits 0; r_chr ":"; two_digits 1; r_chr ":"; two_digits 2 ].

Definition int_or_zero (o : option string) : Z :=
  match o with
  | Some s => match py_int s with Ret n => n | Raise _ => 0 end
  | None => 0
  end.

Definition iso_fields (date time : option caps) : option datetime :=
  match date, time with
  | Some [y; mo; d], Some [h; mi; se] =>
      match new_datetime (int_or_zero y) (int_or_zero mo) (int_or_zero d)
              (int_or_zero h) (int_or_zero mi) (int_or_zero se) with
      | Ret t => Some t
      | Raise _ => None
      end
  | _, _ => None
  end.

Definition iso_basic (s : string) : option datetime :=
  if bool_decide (String.length s = 10%nat) then
    iso_fields (re_match iso_date_regex s)
      (Some [Some "00"; Some "00"; Some "00"])
  else if bool_decide (String.length s = 19%nat) then
    iso_fields (re_match iso_date_regex (str_take 10 s))
      (re_match iso_time_regex (str_drop 11 s))
  else None.

(** ** spark_analyzer.py

    A DataFrame is the list of its rows; only the timestamp column holds
    nulls.  [df.filter(cond)] keeps the rows on which [cond] is true, so
    a comparison with a null timestamp drops the row. *)

Record Row := mk_row {
  row_ip : string;
  row_timestamp : option datetime;
  row_method : string;
  row_path : string;
  row_protocol : string;
  row_status : Z;
  row_size : Z
}.

(** The values a filter bound can hold once the request is decoded. *)
#[local] Set Warnings "-register-all".
Inductive pyval :=
| PNone
| PBool (b : bool)
| PInt (n : Z)
| PStr (s : string)
| PList (l : list pyval).
#[local] Set Warnings "register-all".

(** The [filters] dict: [date_start] is [filters['dateRange']['start']]
    and so on; a missing key is [PNone], the empty string or the empty
    list.  [dateRange] and [sizeRange] are taken to be objects,
    [statusCodes] a list of integers and [httpMethods] a list of strings:
    a specification of another shape is not represented. *)
Record FilterSpec := mk_filters {
  date_start : pyval;
  date_end : pyval;
  ipAddress : string;
  urlPattern : string;
  statusCodes : list Z;
  httpMethods : list string;
  size_min : pyval;
  size_max : pyval
}.

(** [if v:] *)
Definition truthy (v : pyval) : bool :=
  match v with
  | PNone => false
  | PBool b => b
  | PInt n => negb (n =? 0)
  | PStr s => negb (is_empty s)
  | PList l => negb (bool_decide (l = []))
  end.

(** [int(v)] *)
Definition py_int_of (v : pyval) : result Z :=
  match v with
  | PInt n => Ret n
  | PBool b => Ret (if b then 1 else 0)
  | PStr s => py_int s
  | PNone | PList _ => Raise TypeError
  end.

(** [try: body except ValueError: pass], the name keeping [unchanged]
    when the body raised [ValueError]. *)
Definition except_ValueError_pass {A} (body : result A) (unchanged : A)
  : result A :=
  match body with
  | Raise ValueError => Ret unchanged
  | r => r
  end.

(** The condition built for one entry of [statusCodes]. *)
Definition status_condition (code : Z) (r : Row) : bool :=
  if bool_decide (code ∈ [200; 300; 400; 500]) then
    (code <=? row_status r) && (row_status r <? code + 100)
  else row_status r =? code.

(** [combined = conditions[0]; for cond in conditions[1:]: combined |= cond] *)
Definition combine (conditions : list (Row -> bool)) (r : Row) : bool :=
  match conditions with
  | [] => true
  | c0 :: rest => foldl (fun combined cond => combined || cond r) (c0 r) rest
  end.

(** The status block of [apply_filters]. *)
Definition status_filter (df : list Row) (status_codes : list Z) : list Row :=
  match status_codes with
  | [] => df
  | _ => List.filter (combine (map status_condition status_codes)) df
  end.

Definition ts_ge (t0 : datetime) (r : Row) : bool :=
  match row_timestamp r with
  | Some t => dt_leb t0 t
  | None => false
  end.

Definition ts_le (t0 : datetime) (r : Row) : bool :=
  match row_timestamp r with
  | Some t => dt_leb t t0
  | None => false
  end.

Section Analyzer.
Variable fromisoformat : string -> option datetime.

(** [datetime.fromisoformat(v)]: a [str] is required. *)
Definition py_fromisoformat (v : pyval) : result datetime :=
  match v with
  | PStr s =>
      match fromisoformat s with
      | Some t => Ret t
      | None => Raise ValueError
      end
  | _ => Raise TypeError
  end.

Definition apply_filters (df : list Row) (filters : FilterSpec)
  : result (list Row) :=
  let! df :=
    if truthy (date_start filters) then
      except_ValueError_pass
        (let! start_dt := py_fromisoformat (date_start filters) in
         Ret (List.filter (ts_ge start_dt) df)) df
    else Ret df in
  let! df :=
    if truthy (date_end filters) then
      except_ValueError_pass
        (let! end_dt := py_fromisoformat (date_end filters) in
         Ret (List.filter (ts_le end_dt) df)) df
    else Ret df in
  let df :=
    if negb (is_empty (ipAddress filters)) then
      List.filter (fun r => contains (ipAddress filters) (row_ip r)) df
    else df in
  let df :=
    if negb (is_empty (urlPattern filters)) then
      List.filter (fun r => contains (urlPattern filters) (row_path r)) df
    else df in
  let df := status_filter df (statusCodes filters) in
  let df :=
    match httpMethods filters with
    | [] => df
    | methods =>
        List.filter (fun r => existsb (String.eqb (row_method r)) methods) df
    end in
  let! df :=
    if truthy (size_min filters) then
      except_ValueError_pass
        (let! min_size := py_int_of (size_min filters) in
         Ret (List.filter (fun r => min_size <=? row_size r) df)) df
    else Ret df in
  let! df :=
    if truthy (size_max filters) then
      except_ValueError_pass
        (let! max_size := py_int_of (size_max filters) in
         Ret (List.filter (fun r => row_size r <=? max_size) df)) df
    else Ret df in
  Ret df.
End Analyzer.

(** The filter specification with no clause. *)
Definition no_filters : FilterSpec :=
  mk_filters PNone PNone EmptyString EmptyString [] [] PNone PNone.

(** [groupBy(key).count().orderBy(key)]: one pair per distinct key, in
    ascending order of the key. *)
Fixpoint count_key (k : Z) (groups : list (Z * nat)) : list (Z * nat) :=
  match groups with
  | [] => [(k, 1%nat)]
  | (k', n) :: rest =>
      if k <? k' then (k, 1%nat) :: groups
      else if k =? k' then (k', S n) :: rest
      else (k', n) :: count_key k rest
  end.

Definition group_count (keys : list Z) : list (Z * nat) :=
  foldl (fun groups k => count_key k groups) [] keys.

(** A dict comprehension over pairs: a later pair replaces an earlier one
    with the same key. *)
Definition dict_of (pairs : list (Z * nat)) : gmap Z nat :=
  foldl (fun d kv => <[kv.1 := kv.2]> d) ∅ pairs.

Record HourCount := mk_hour_count { hc_hour : Z; hc_count : nat }.

(** [range(n)] *)
Definition range (n : nat) : list Z := map Z.of_nat (seq 0 n).

Definition hourly_traffic_counter (df : list Row) : list HourCount :=
  let hourly := group_count (map hour (omap row_timestamp df)) in
  let hour_counts := dict_of hourly in
  map (fun h => mk_hour_count h (default 0%nat (hour_counts !! h))) (range 24).

(** ** Vocabulary of the specification *)

Section PatternRelations.
Variable A : Type.
Implicit Types (k : nat -> string -> caps -> option A) (r : regex).

(** [r] cannot match where the subject starts with a character of [p]. *)
Definition rejects (p : ascii -> bool) r : Prop :=
  forall s0 pos a s c k,
    p a = true -> rmatch s0 r pos (String a s) c k = None.

(** [r] cannot match at the end of the subject. *)
Definition nonempty r : Prop :=
  forall s0 pos c k, rmatch s0 r pos EmptyString c k = None.

(** Every match of [r] is the match of [r'], with the same groups. *)
Definition imp r r' : Prop :=
  forall s0 pos s c k x,
    rmatch s0 r pos s c k = Some x -> rmatch s0 r' pos s c k = Some x.
End PatternRelations.

(** The line of the round-trip example, and the same request answered
    without a body, where the size is a dash. *)
Definition sample_line : string :=
  "10.0.0.1 - - [10/Oct/2020:13:55:36 +0000] "
  ++ String dquote "GET /index.html HTTP/1.1"
  ++ String dquote " 200 1024".

Definition dash_line : string :=
  "10.0.0.1 - - [10/Oct/2020:13:55:36 +0000] "
  ++ String dquote "GET /index.html HTTP/1.1"
  ++ String dquote " 200 -".



Definition sample_instant : datetime := mk_dt 2020 10 10 13 55 36 eq_refl.



(** Where the longest run of characters of [p] ends: the offset and what
    is left of the subject. *)
Fixpoint run_end (p : ascii -> bool) (pos : nat) (s : string) : nat * string :=
  match s with
  | String a s' => if p a then run_end p (S pos) s' else (pos, s)
  | EmptyString => (pos, s)
  end.

(** The semantic roles of a column, in the precedence order of the
    header matching. *)
Inductive role := RIp | RTimestamp | RMethod | RPath | RStatus | RSize.

#[global] Instance role_eq_dec : EqDecision role.
Proof. solve_decision. Defined.

Definition roles : list role :=
  [RIp; RTimestamp; RMethod; RPath; RStatus; RSize].

(** The key of a role in the field map. *)
Definition role_key (r : role) : string :=
  match r with
  | RIp => "ip" | RTimestamp => "timestamp" | RMethod => "method"
  | RPath => "path" | RStatus => "status" | RSize => "size"
  end.

Definition role_keywords (r : role) : list string :=
  match r with
  | RIp => ["ip"; "address"; "client"]
  | RTimestamp => ["time"; "date"]
  | RMethod => ["method"; "verb"]
  | RPath => ["path"; "url"; "uri"; "request"]
  | RStatus => ["status"; "code"; "response"]
  | RSize => ["size"; "bytes"; "length"]
  end.

(** A header token as it is compared: lower case, without surrounding
    blanks and quotes. *)
Definition normalise (header : string) : string :=
  strip_quotes (strip (lower header)).

(** The header matches the keyword set of the role. *)
Definition matches_role (header : string) (r : role) : bool :=
  existsb (fun kw => contains kw (normalise header)) (role_keywords r).

(** The role of a column: the first role in precedence order whose
    keyword set the header matches. *)
Definition column_role (header : string) : option role :=
  List.find (matches_role header) roles.

(** The place of a role in the precedence order. *)
Definition role_rank (r : role) : nat :=
  match r with
  | RIp => 0 | RTimestamp => 1 | RMethod => 2
  | RPath => 3 | RStatus => 4 | RSize => 5
  end.

(** [i] is the last column of [headers] whose role is [r]. *)
Definition last_column (r : role) (headers : list string) (i : nat) : Prop :=
  exists (before : list string) (h : string) (after : list string),
    headers = (before ++ h :: after)%list /\ length before = i
    /\ column_role h = Some r
    /\ Forall (fun h' => column_role h' <> Some r) after.

(** Headers with several columns of one role, and a column that matches
    the keywords of two roles. *)
Definition sample_headers : list string :=
  ["client_ip"; "IP Address"; "request_time"; "url"].

(** A delimited file of one row, and one whose header names no address
    and no path. *)
Definition sample_csv : string :=
  "ip,path,status,bytes" ++ String newline "1.2.3.4,/a,200,500".

Definition unknown_csv : string :=
  "user,agent,date" ++ String newline "bob,curl,2020-10-10".

(** The number of rows of [df] whose timestamp is present and falls in
    hour [h]. *)
Definition rows_at_hour (h : Z) (df : list Row) : nat :=
  length (List.filter
            (fun r => match row_timestamp r with
                      | Some t => hour t =? h
                      | None => false
                      end) df).

Definition total_count (res : list HourCount) : nat :=
  sum_list (map hc_count res).

(** The value a dict comprehension keeps for a key: the one of the last
    pair with that key. *)
Fixpoint last_value (pairs : list (Z * nat)) (k : Z) : option nat :=
  match pairs with
  | [] => None
  | (k', v) :: rest =>
      match last_value rest k with
      | Some v' => Some v'
      | None => if k =? k' then Some v else None
      end
  end.

(** The keys of the groups, in ascending order. *)
Definition ascending (groups : list (Z * nat)) : Prop :=
  StronglySorted (fun a b => a.1 < b.1) groups.

(** The number of occurrences of a key. *)
Definition occurrences (k : Z) (keys : list Z) : nat :=
  length (List.filter (Z.eqb k) keys).

(** A filter specification with one bound replaced. *)
Definition with_date_start (v : pyval) (f : FilterSpec) : FilterSpec :=
  mk_filters v (date_end f) (ipAddress f) (urlPattern f) (statusCodes f)
    (httpMethods f) (size_min f) (size_max f).

Definition with_date_end (v : pyval) (f : FilterSpec) : FilterSpec :=
  mk_filters (date_start f) v (ipAddress f) (urlPattern f) (statusCodes f)
    (httpMethods f) (size_min f) (size_max f).

Definition with_size_min (v : pyval) (f : FilterSpec) : FilterSpec :=
  mk_filters (date_start f) (date_end f) (ipAddress f) (urlPattern f)
    (statusCodes f) (httpMethods f) v (size_max f).

Definition with_size_max (v : pyval) (f : FilterSpec) : FilterSpec :=
  mk_filters (date_start f) (date_end f) (ipAddress f) (urlPattern f)
    (statusCodes f) (httpMethods f) (size_min f) v.

Definition with_status_codes (codes : list Z) (f : FilterSpec) : FilterSpec :=
  mk_filters (date_start f) (date_end f) (ipAddress f) (urlPattern f)
    codes (httpMethods f) (size_min f) (size_max f).

(** Two rows, one at 13 h and one without a timestamp. *)
Definition timed_row : Row :=
  mk_row "10.0.0.1" (Some sample_instant) "GET" "/" "HTTP/1.1" 200 1024.

Definition untimed_row : Row :=
  mk_row "10.0.0.2" None "GET" "/" "HTTP/1.1" 200 10.

(** A row with a given status and nothing else of note. *)
Definition status_row (status : Z) : Row :=
  mk_row "10.0.0.1" None "GET" "/" "HTTP/1.1" status 0.

(** The invariant of the records: neither field is negative. *)
Definition nonneg_entry (e : ParsedLogEntry) : Prop :=
  0 <= e_size e /\ 0 <= e_status e.

(** A listed status code matches a status: a class code matches its
    hundred, any other code matches itself. *)
Definition code_matches (code status : Z) : Prop :=
  ((code ∈ [200; 300; 400; 500]) ∧ (code <= status < code + 100))
  ∨ ((code ∉ [200; 300; 400; 500]) ∧ status = code).

(** ** Vocabulary of the further properties *)

(** The diagnostics of lines that gave no entry, numbered from [i] on. *)
Fixpoint diagnostics_from (i : nat) (lines : list string) : list string :=
  match lines with
  | [] => []
  | line :: rest => unable_to_parse i line :: diagnostics_from (S i) rest
  end.

(** The combined pattern matches the line once stripped. *)
Definition matches_combined (line : string) : bool :=
  bool_decide (is_Some (re_match APACHE_COMBINED_REGEX (strip line))).
(** The token of a row for a role of the field map: the value of the
    mapped column, [dflt] when the role has no column, nothing when the
    row is too short. *)
Definition column_or (values : list string) (field_map : gmap string nat)
    (key dflt : string) : option string :=
  match field_map !! key with
  | Some i => values !! i
  | None => Some dflt
  end.

(** The data row is not blank once stripped. *)
Definition nonblank (line : string) : bool := negb (is_empty (strip line)).

(** The clause of a date bound as a predicate on rows: no constraint
    when the bound is missing or does not parse as a string. *)
Definition date_clause (fromisoformat : string -> option datetime)
    (v : pyval) (cmp : datetime -> Row -> bool) : result (Row -> bool) :=
  if truthy v then
    except_ValueError_pass
      (let! t := py_fromisoformat fromisoformat v in Ret (cmp t))
      (fun _ => true)
  else Ret (fun _ => true).

(** The clause of a size bound. *)
Definition size_clause (v : pyval) (cmp : Z -> Row -> bool)
  : result (Row -> bool) :=
  if truthy v then
    except_ValueError_pass (let! n := py_int_of v in Ret (cmp n))
      (fun _ => true)
  else Ret (fun _ => true).

(** The clauses on the address, the path, the status and the method. *)
Definition plain_clauses (f : FilterSpec) (r : Row) : bool :=
  (is_empty (ipAddress f) || contains (ipAddress f) (row_ip r))
  && (is_empty (urlPattern f) || contains (urlPattern f) (row_path r))
  && match statusCodes f with
     | [] => true
     | codes => combine (map status_condition codes) r
     end
  && match httpMethods f with
     | [] => true
     | methods => existsb (String.eqb (row_method r)) methods
     end.

(** The conjunction of the clauses of a filter specification, or the
    exception a bound raises. *)
Definition filter_predicate (fromisoformat : string -> option datetime)
    (f : FilterSpec) : result (Row -> bool) :=
  let! p_start := date_clause fromisoformat (date_start f) ts_ge in
  let! p_end := date_clause fromisoformat (date_end f) ts_le in
  let! p_min := size_clause (size_min f) (fun n r => n <=? row_size r) in
  let! p_max := size_clause (size_max f) (fun n r => row_size r <=? n) in
  Ret (fun r => p_start r && p_end r && plain_clauses f r
                && p_min r && p_max r).

(** [status_code_distribution]: one entry per distinct status, in
    ascending order of the status. *)
Record StatusCount := mk_status_count { sc_status : Z; sc_count : nat }.

Definition status_code_distribution (df : list Row) : list StatusCount :=
  map (fun row => mk_status_count row.1 row.2)
    (group_count (map row_status df)).

(** The number of rows of [df] with status [s]. *)
Definition rows_with_status (s : Z) (df : list Row) : nat :=
  length (List.filter (fun r => row_status r =? s) df).

(** ** views.py and [create_dataframe] *)

(** One decimal digit, and numbers padded with zeros to two and to four
    digits. *)
Definition digit_char (d : Z) : ascii := ascii_of_N (Z.to_N (48 + d mod 10)).

Definition pad2 (n : Z) : string :=
  String (digit_char (n / 10)) (String (digit_char n) EmptyString).

Definition pad4 (n : Z) : string :=
  String (digit_char (n / 1000)) (String (digit_char (n / 100)) (pad2 n)).

(** [t.isoformat()] of a naive value without microseconds. *)
Definition isoformat (t : datetime) : string :=
  pad4 (year t) ++ "-" ++ pad2 (month t) ++ "-" ++ pad2 (day t) ++ "T"
  ++ pad2 (hour t) ++ ":" ++ pad2 (minute t) ++ ":" ++ pad2 (second t).

(** The dict [entry_to_dict] builds: every key present, the timestamp a
    string or [None]. *)
Record EntryDict := mk_dict {
  d_ip : string;
  d_timestamp : option string;
  d_method : string;
  d_path : string;
  d_protocol : string;
  d_status : Z;
  d_size : Z
}.

Definition entry_to_dict (entry : ParsedLogEntry) : EntryDict :=
  mk_dict (e_ip entry) (isoformat <$> e_timestamp entry) (e_method entry)
    (e_path entry) (e_protocol entry) (e_status entry) (e_size entry).

(** The timestamp [create_dataframe] puts in the tuple of an entry: a
    string that is not empty goes through [fromisoformat], a failure
    leaving [None]. *)
Definition dict_timestamp (fromisoformat : string -> option datetime)
    (ts : option string) : option datetime :=
  match ts with
  | Some s =>
      if is_empty s then None
      else fromisoformat (replace_char "Z" "+00:00" s)
  | None => None
  end.

(** The tuple [create_dataframe] appends to [data] for an entry. *)
Definition data_tuple (fromisoformat : string -> option datetime)
    (entry : EntryDict) : Row :=
  mk_row (d_ip entry) (dict_timestamp fromisoformat (d_timestamp entry))
    (d_method entry) (d_path entry) (d_protocol entry)
    (d_status entry) (d_size entry).

(** [status] and [size] are of [IntegerType] in [LOG_SCHEMA]: 32 bits. *)
Definition fits_integer_type (x : Z) : bool :=
  in_range (-2147483648) 2147483647 x.

Definition fits_schema (r : Row) : bool :=
  fits_integer_type (row_status r) && fits_integer_type (row_size r).

(** [spark.createDataFrame(data, LOG_SCHEMA)] on tuples of strings, a
    timestamp or [None], and two integers.  The tuples are checked
    against the schema first, and an integer out of the range of its
    column raises an error of class [ValueError].  A naive timestamp is
    stored as an instant of the time zone of the process and read in the
    time zone of the session: [stored t] is the value the data frame
    holds for [t]. *)
Definition stored_row (stored : datetime -> datetime) (r : Row) : Row :=
  mk_row (row_ip r) (stored <$> row_timestamp r) (row_method r) (row_path r)
    (row_protocol r) (row_status r) (row_size r).

Definition createDataFrame (stored : datetime -> datetime) (data : list Row)
  : result (list Row) :=
  if forallb fits_schema data then Ret (map (stored_row stored) data)
  else Raise ValueError.

(** [create_dataframe] on dicts of the shape of [entry_to_dict]. *)
Definition create_dataframe (fromisoformat : string -> option datetime)
    (stored : datetime -> datetime) (entries : list EntryDict)
  : result (list Row) :=
  let data := map (data_tuple fromisoformat) entries in
  createDataFrame stored data.

(** The tuple that holds the fields of a parsed entry, and whether its
    integers fit the schema. *)
Definition row_of_entry (e : ParsedLogEntry) : Row :=
  mk_row (e_ip e) (e_timestamp e) (e_method e) (e_path e) (e_protocol e)
    (e_status e) (e_size e).

Definition entry_fits (e : ParsedLogEntry) : bool :=
  fits_integer_type (e_status e) && fits_integer_type (e_size e).

(** A delimited file with a row whose size is beyond 32 bits. *)
Definition large_csv : string :=
  "ip,path,status,bytes" ++ String newline "1.2.3.4,/a,200,3000000000".

(** [data[start:stop]]: an index below zero counts from the end, and
    both indices are brought back within the list. *)
Definition clamp_index (len i : Z) : Z :=
  if i <? 0 then Z.max 0 (len + i) else Z.min i len.

Definition py_slice {A} (l : list A) (start stop : Z) : list A :=
  let len := Z.of_nat (length l) in
  let s := clamp_index len start in
  let e := clamp_index len stop in
  take (Z.to_nat (e - s)) (drop (Z.to_nat s) l).

(** The rows of a page of [preview_data]. *)
Definition page_rows {A} (data : list A) (page limit : Z) : list A :=
  let start_idx := (page - 1) * limit in
  let end_idx := start_idx + limit in
  py_slice data start_idx end_idx.

(** [(len(data) + limit - 1) // limit] *)
Definition total_pages {A} (data : list A) (limit : Z) : Z :=
  (Z.of_nat (length data) + limit - 1) / limit.

Record Preview (A : Type) := mk_preview {
  pv_data : list A;
  pv_total : Z;
  pv_page : Z;
  pv_limit : Z;
  pv_totalPages : Z
}.
Arguments mk_preview {A} _ _ _ _ _.
Arguments pv_data {A} _.
Arguments pv_totalPages {A} _.

(** The answer of [preview_data] for cached data, the page and the limit
    being the query parameters once read as integers; [None] stands for
    the [ZeroDivisionError] of a limit of zero. *)
Definition preview_data {A} (data : list A) (page limit : Z)
  : option (Preview A) :=
  let paginated_data := page_rows data page limit in
  if limit =? 0 then None
  else Some (mk_preview paginated_data (Z.of_nat (length data)) page limit
               (total_pages data limit)).

(** The pages from 1 to [n]. *)
Definition pages_upto (n : nat) : list Z := map Z.of_nat (seq 1 n).

(** What [upload_file] does with the decoded content of an upload, up to
    the point where it stores the file. *)
Inductive UploadOutcome :=
| Rejected (error : string)
| NoValidEntries (details : list string)
| Failed (e : exn)
| Parsed (entries : list ParsedLogEntry) (errors : list string).

Definition upload_decision (fromisoformat : string -> option datetime)
    (content : string) : UploadOutcome :=
  if is_empty content then Rejected "File is empty or could not be read"
  else if is_empty (strip content) then
    Rejected "File is empty (contains only whitespace)"
  else if 100 * 1024 * 1024 <? Z.of_nat (String.length content) then
    Rejected "File too large. Maximum size is 100MB"
  else
    match parse_log_file fromisoformat content with
    | Raise e => Failed e
    | Ret (entries, errors) =>
        match entries with
        | [] =>
            NoValidEntries
              (match errors with
               | [] => ["Unable to parse file format"]
               | _ => take 10 errors
               end)
        | _ => Parsed entries errors
        end
    end.

(** * Properties *)

(** ** The matcher *)

Lemma rep_star_some {A} (p : ascii -> bool) (Q : Prop) (x : A) :
  forall s pos k,
    (forall p' s', k p' s' = Some x -> Q) ->
    rep_star p pos s k = Some x -> Q.
Proof.
  induction s as [|a s IH]; intros pos k Hk; simpl.
  - apply Hk.
  - destruct (p a); [|apply Hk].
    destruct (rep_star p (S pos) s k) as [y|] eqn:E.
    + intros [= ->]. eapply IH; eauto.
    + apply Hk.
Qed.

(** Whatever holds of the captures when the continuation succeeds holds
    when the match succeeds, for a property that group updates keep. *)
Lemma rmatch_some {A} (I : caps -> Prop) (Q : Prop) (x : A) s0 :
  (forall n v c, I c -> I (<[n := v]> c)) ->
  forall r pos s c k,
    I c ->
    (forall p' s' c', I c' -> k p' s' c' = Some x -> Q) ->
    rmatch s0 r pos s c k = Some x -> Q.
Proof.
  intros HI.
  induction r as [| |a|cl|cl|cl|n r IHr|r1 IHr1 r2 IHr2|r IHr];
    intros pos s c k Hc Hk; simpl.
  - destruct (pos =? 0)%nat; [eauto | discriminate].
  - eauto.
  - destruct s as [|b s]; [discriminate|].
    destruct (Ascii.eqb b a); [eauto | discriminate].
  - destruct s as [|b s]; [discriminate|].
    destruct (in_class cl b); [eauto | discriminate].
  - apply rep_star_some. eauto.
  - destruct s as [|b s]; [discriminate|].
    destruct (in_class cl b); [|discriminate].
    apply rep_star_some. eauto.
  - apply IHr; [done|]. intros p' s' c' Hc'. apply Hk. by apply HI.
  - apply IHr1; [done|]. intros p' s' c' Hc'. by apply IHr2.
  - destruct (rmatch s0 r pos s c k) as [y|] eqn:E.
    + intros [= ->]. eapply IHr; eauto.
    + eauto.
Qed.

(** [groups()] has one entry per group of the pattern. *)
Lemma re_match_length r s g :
  re_match r s = Some g -> length g = ngroups r.
Proof.
  unfold re_match.
  apply (rmatch_some (fun c => length c = ngroups r)).
  - intros n v c Hc. simpl. by rewrite length_insert.
  - simpl. by rewrite length_replicate.
  - by intros _ _ c' Hc' [= <-].
Qed.

(** ** What a match says about the subject *)










(** ** The tuple assignment *)

Lemma unpack7_length g : length g <> 7%nat -> unpack7 g = Raise ValueError.
Proof.
  intros H. do 8 (destruct g as [|? g]; try reflexivity).
  simpl in H. lia.
Qed.

(** A line on which one of the two patterns matches makes the tuple
    assignment fail: both patterns have ten groups. *)
Lemma try_patterns_match pattern rest line g :
  ngroups pattern = 10%nat ->
  re_match pattern line = Some g ->
  try_patterns (pattern :: rest) line = Raise ValueError.
Proof.
  intros Hn Hm. simpl. rewrite Hm.
  rewrite unpack7_length; [done|].
  apply re_match_length in Hm. rewrite Hm, Hn. lia.
Qed.

Lemma try_patterns_no_entry patterns line :
  Forall (fun r => ngroups r = 10%nat) patterns ->
  try_patterns patterns line = Ret None
  \/ try_patterns patterns line = Raise ValueError.
Proof.
  induction 1 as [|r rest Hr _ IH]; [by left|].
  destruct (re_match r line) as [g|] eqn:E.
  - right. by eapply try_patterns_match.
  - simpl. by rewrite E.
Qed.

Lemma parse_log_line_cases line :
  parse_log_line line = Ret None \/ parse_log_line line = Raise ValueError.
Proof.
  unfold parse_log_line, parse_log_line_with.
  destruct (is_empty (strip line)); [by left|].
  apply try_patterns_no_entry. by repeat constructor.
Qed.

(** ** The two line patterns *)

Section Patterns.
Context {A : Type}.
Implicit Types (k : nat -> string -> caps -> option A) (r : regex).

(** A greedy run followed by something that cannot start inside the
    run has one way to match: the whole run. *)
Lemma rep_star_det (p : ascii -> bool) (k : nat -> string -> option A) :
  (forall pos a s, p a = true -> k pos (String a s) = None) ->
  forall s pos,
    rep_star p pos s k = k (run_end p pos s).1 (run_end p pos s).2.
Proof.
  intros Hk. induction s as [|a s IH]; intros pos; simpl; [done|].
  destruct (p a) eqn:Ea; [|done].
  rewrite IH. destruct (k _ _) eqn:E; [done|]. by apply Hk.
Qed.

Lemma rejects_plus p cl r :
  (forall a, p a = true -> in_class cl a = false) ->
  rejects A p (r_cat (r_plus cl) r).
Proof. intros H s0 pos a s c k Ha. simpl. by rewrite (H a Ha). Qed.

Lemma rejects_chr p x r : p x = false -> rejects A p (r_cat (r_chr x) r).
Proof.
  intros H s0 pos a s c k Ha. simpl.
  destruct (Ascii.eqb_spec a x) as [->|]; [congruence | done].
Qed.

Lemma nonempty_plus cl r : nonempty A (r_cat (r_plus cl) r).
Proof. done. Qed.

Lemma imp_refl r : imp A r r.
Proof. by intros s0 pos s c k x. Qed.

Lemma imp_bol r r' : imp A r r' -> imp A (r_cat r_bol r) (r_cat r_bol r').
Proof.
  intros H s0 pos s c k x. simpl.
  destruct (pos =? 0)%nat; [apply H | done].
Qed.

Lemma imp_plus cl r r' :
  rejects A (in_class cl) r -> rejects A (in_class cl) r' -> imp A r r' ->
  imp A (r_cat (r_plus cl) r) (r_cat (r_plus cl) r').
Proof.
  intros Hr Hr' H s0 pos s c k x. simpl.
  destruct s as [|b s]; [done|]. destruct (in_class cl b); [|done].
  rewrite !rep_star_det by (intros; by (apply Hr || apply Hr')).
  apply H.
Qed.

Lemma imp_grp_plus n cl r r' :
  rejects A (in_class cl) r -> rejects A (in_class cl) r' -> imp A r r' ->
  imp A (r_cat (r_grp n (r_plus cl)) r) (r_cat (r_grp n (r_plus cl)) r').
Proof.
  intros Hr Hr' H s0 pos s c k x. simpl.
  destruct s as [|b s]; [done|]. destruct (in_class cl b); [|done].
  rewrite !rep_star_det by (intros; by (apply Hr || apply Hr')).
  apply H.
Qed.

(** A literal dash followed by blanks is one way to read a token
    followed by blanks, and the only one when the token is a dash. *)
Lemma imp_dash r r' :
  rejects A (in_class c_nonspace) r -> nonempty A r ->
  rejects A (in_class c_nonspace) r' -> imp A r r' ->
  imp A (r_cat (r_chr "-") r) (r_cat (r_plus c_nonspace) r').
Proof.
  intros Hr He Hr' H s0 pos s c k x. simpl.
  destruct s as [|b s]; [done|].
  destruct (Ascii.eqb_spec b "-") as [->|]; [|done].
  simpl. intros Hm.
  rewrite rep_star_det by (intros; by apply Hr').
  destruct s as [|a s]; [by rewrite He in Hm|].
  simpl. destruct (negb (is_space a)) eqn:Ea.
  - by rewrite Hr in Hm.
  - simpl. by apply H.
Qed.
End Patterns.

Lemma space_not_nonspace a : is_space a = true -> in_class c_nonspace a = false.
Proof. simpl. by intros ->. Qed.

Lemma nonspace_not_space a : in_class c_nonspace a = true -> in_class c_space a = false.
Proof. simpl. by destruct (is_space a). Qed.

Lemma nginx_imp_apache A : imp A NGINX_REGEX APACHE_COMBINED_REGEX.
Proof.
  unfold NGINX_REGEX, APACHE_COMBINED_REGEX, r_seq. cbn [foldr].
  apply imp_bol.
  apply imp_grp_plus;
    [by apply rejects_plus, nonspace_not_space ..|].
  apply imp_plus;
    [ by apply rejects_chr | by apply rejects_plus, space_not_nonspace |].
  apply imp_dash;
    [ by apply rejects_plus, nonspace_not_space | apply nonempty_plus
    | by apply rejects_plus, nonspace_not_space |].
  apply imp_plus;
    [ by apply rejects_chr | by apply rejects_plus, space_not_nonspace |].
  apply imp_dash;
    [ by apply rejects_plus, nonspace_not_space | apply nonempty_plus
    | by apply rejects_plus, nonspace_not_space |].
  apply imp_refl.
Qed.

Lemma nginx_match_is_apache_match line g :
  re_match NGINX_REGEX line = Some g ->
  re_match APACHE_COMBINED_REGEX line = Some g.
Proof. apply (nginx_imp_apache caps). Qed.

(** C9. Whenever the second (Nginx) pattern matches a line, the first
    (Apache combined) pattern matches it with the same captured groups;
    the second pattern is therefore never the one that decides, and
    [parse_log_line] is the function it would be with the first pattern
    alone. *)
Theorem nginx_pattern_redundant line :
  (forall g, re_match NGINX_REGEX line = Some g ->
             re_match APACHE_COMBINED_REGEX line = Some g)
  /\ parse_log_line line = parse_log_line_with [APACHE_COMBINED_REGEX] line.
Proof.
  split; [intros g; apply nginx_match_is_apache_match|].
  unfold parse_log_line, parse_log_line_with.
  destruct (is_empty (strip line)); [done|]. simpl.
  destruct (re_match APACHE_COMBINED_REGEX (strip line)) eqn:Ea; [done|].
  destruct (re_match NGINX_REGEX (strip line)) eqn:En; [|done].
  apply nginx_match_is_apache_match in En. congruence.
Qed.

Lemma nginx_pattern_redundant_witness :
  re_match APACHE_COMBINED_REGEX sample_line
  = Some [ Some "10.0.0.1"; Some "10/Oct/2020:13:55:36 +0000"; Some "GET";
           Some "/index.html"; Some "HTTP/1.1"; Some "200"; Some "1024";
           None; None; None ]
  /\ parse_log_line sample_line
     = parse_log_line_with [APACHE_COMBINED_REGEX] sample_line.
Proof.
  destruct (nginx_pattern_redundant sample_line) as [H1 H2].
  split; [apply H1; vm_compute; reflexivity | exact H2].
Defined.

(** ** The line parser *)

(** C5. On the literal line of the round-trip example the combined
    pattern matches and binds ten groups, the first seven being the
    fields the claim lists; the record the body of [parse_log_line]
    builds from those seven is the claimed one, with the naive instant
    2020-10-10T13:55:36, whatever the offset.  The tuple assignment takes
    seven values though, so [parse_log_line] and [parse_log_file] raise
    [ValueError] instead of returning the record. *)
Theorem sample_line_raises fromisoformat :
  re_match APACHE_COMBINED_REGEX sample_line
  = Some [ Some "10.0.0.1"; Some "10/Oct/2020:13:55:36 +0000"; Some "GET";
           Some "/index.html"; Some "HTTP/1.1"; Some "200"; Some "1024";
           None; None; None ]
  /\ entry_of_fields "10.0.0.1" "10/Oct/2020:13:55:36 +0000" "GET"
       "/index.html" "HTTP/1.1" "200" "1024" sample_line
     = Ret (Some (mk_entry "10.0.0.1" (Some sample_instant) "GET"
                    "/index.html" "HTTP/1.1" 200 1024 sample_line))
  /\ parse_apache_timestamp "10/Oct/2020:13:55:36 -0700"
     = parse_apache_timestamp "10/Oct/2020:13:55:36 +0000"
  /\ parse_log_line sample_line = Raise ValueError
  /\ parse_log_file fromisoformat sample_line = Raise ValueError.
Proof. repeat split; vm_compute; reflexivity. Qed.

(** What [parse_log_line] and the loop of [parse_log_file] come to. *)
Lemma parse_log_line_outcome line :
  parse_log_line line
  = if matches_combined line then Raise ValueError else Ret None.
Proof.
  unfold matches_combined, parse_log_line, parse_log_line_with.
  destruct (is_empty (strip line)) eqn:Ee.
  - destruct (strip line); [|done]. by rewrite bool_decide_eq_false_2.
  - cbn [try_patterns].
    destruct (re_match APACHE_COMBINED_REGEX (strip line)) as [g|] eqn:E.
    + rewrite bool_decide_eq_true_2 by done.
      rewrite unpack7_length; [done|].
      apply re_match_length in E. rewrite E. vm_compute. lia.
    + rewrite bool_decide_eq_false_2 by (by intros []).
      destruct (re_match NGINX_REGEX (strip line)) as [g|] eqn:En; [|done].
      apply nginx_match_is_apache_match in En. congruence.
Qed.

Lemma log_lines_outcome lines : forall i es errs,
  log_lines i lines es errs
  = if existsb matches_combined lines then Raise ValueError
    else Ret (es, (errs ++ diagnostics_from i lines)%list).
Proof.
  induction lines as [|line rest IH]; intros i es errs.
  - simpl. by rewrite app_nil_r.
  - cbn [log_lines existsb diagnostics_from].
    rewrite parse_log_line_outcome.
    destruct (matches_combined line); [done|]. simpl.
    rewrite IH. destruct (existsb matches_combined rest); [done|].
    by rewrite <- app_assoc.
Qed.

(** ** Sizes and statuses that are not numbers *)

(** C1. A line that the combined pattern accepts with the dash as size
    token is meant to be left out: the body of [parse_log_line] returns
    [None] for the size token [-], whatever the other fields.  The body is
    not reached: the pattern binds ten groups and the tuple assignment
    takes seven, so [parse_log_line] raises [ValueError] on the line, and
    so does [parse_log_file] on every file read line by line that holds
    such a line. *)
Theorem dash_size_line_raises fromisoformat content first rest line g :
  nonblank_lines content = first :: rest ->
  detect_csv_format first = false ->
  In line (first :: rest) ->
  re_match APACHE_COMBINED_REGEX (strip line) = Some g ->
  g !! 6%nat = Some (Some "-") ->
  length g = 10%nat
  /\ unpack7 g = Raise ValueError
  /\ parse_log_line line = Raise ValueError
  /\ parse_log_file fromisoformat content = Raise ValueError
  /\ (forall ip ts m p pr st,
        entry_of_fields ip ts m p pr st "-" (strip line) = Ret None).
Proof.
  intros Hl Hd Hin Hm Hsize.
  assert (length g = 10%nat) as Hlen by apply (re_match_length _ _ _ Hm).
  assert (matches_combined line = true) as Hmc
    by (unfold matches_combined; rewrite Hm; by apply bool_decide_eq_true_2).
  split; [done|]. split; [apply unpack7_length; lia|].
  split; [by rewrite parse_log_line_outcome, Hmc|]. split; [|done].
  unfold parse_log_file. rewrite Hl, Hd, log_lines_outcome.
  assert (existsb matches_combined (first :: rest) = true) as ->; [|done].
  apply existsb_exists. by exists line.
Qed.

Lemma dash_size_line_raises_witness :
  parse_log_line dash_line = Raise ValueError
  /\ parse_log_file iso_basic dash_line = Raise ValueError.
Proof.
  assert (re_match APACHE_COMBINED_REGEX (strip dash_line)
          = Some [ Some "10.0.0.1"; Some "10/Oct/2020:13:55:36 +0000";
                   Some "GET"; Some "/index.html"; Some "HTTP/1.1";
                   Some "200"; Some "-"; None; None; None ]) as Hm
    by (vm_compute; reflexivity).
  assert (nonblank_lines dash_line = [dash_line]) as Hl
    by (vm_compute; reflexivity).
  assert (detect_csv_format dash_line = false) as Hd
    by (vm_compute; reflexivity).
  destruct (dash_size_line_raises iso_basic dash_line dash_line [] dash_line
              _ Hl Hd (or_introl eq_refl) Hm eq_refl)
    as (_ & _ & Hline & Hfile & _).
  split; [exact Hline | exact Hfile].
Defined.




(** ** Sizes and statuses are not negative *)

Lemma decimal_digit_val a : is_decimal a = true -> 0 <= digit_val a.
Proof.
  unfold is_decimal, between, digit_val. intros H.
  apply andb_true_iff in H as [H _]. apply N.leb_le in H. lia.
Qed.

Lemma int_body_nonneg s : forall prev acc n,
  0 <= acc -> int_body prev acc s = Some n -> 0 <= n.
Proof.
  induction s as [|a s IH]; intros prev acc n Hacc; simpl.
  - destruct prev; [by intros [= <-] | done].
  - destruct (is_decimal a) eqn:Ea.
    + apply IH. pose proof (decimal_digit_val a Ea). lia.
    + destruct (Ascii.eqb a "_" && prev); [|done].
      destruct s as [|b s]; [done|].
      destruct (is_decimal b); [|done]. by apply IH.
Qed.

Lemma digit_not_space a : is_digit a = true -> is_int_space a = false.
Proof.
  destruct a as [[] [] [] [] [] [] [] []]; vm_compute; congruence.
Qed.

Lemma rstrip_no_space s :
  str_all is_digit s = true -> rstrip_with is_int_space s = s.
Proof.
  induction s as [|a s IH]; simpl; [done|].
  intros H. apply andb_true_iff in H as [Ha Hs].
  rewrite (IH Hs), (digit_not_space a Ha). by destruct s.
Qed.

Lemma strip_digits s :
  str_all is_digit s = true -> strip_with is_int_space s = s.
Proof.
  intros H. unfold strip_with.
  assert (lstrip_with is_int_space s = s) as ->; [|by apply rstrip_no_space].
  destruct s as [|a s]; simpl; [done|].
  simpl in H. apply andb_true_iff in H as [Ha _].
  by rewrite (digit_not_space a Ha).
Qed.

Lemma py_int_digits_nonneg s n :
  isdigit s = true -> py_int s = Ret n -> 0 <= n.
Proof.
  unfold isdigit, py_int. intros H. apply andb_true_iff in H as [_ H].
  rewrite (strip_digits s H).
  destruct s as [|a s].
  - simpl. done.
  - simpl in H. apply andb_true_iff in H as [Ha _].
    assert (a <> "+"%char /\ a <> "-"%char) as [Hp Hm].
    { split; intros ->; vm_compute in Ha; discriminate. }
    assert (forall z, int_body false 0 (String a s) = Some z -> 0 <= z) as Hb
      by (intros z; apply int_body_nonneg; lia).
    destruct a as [[] [] [] [] [] [] [] []]; try congruence;
      (destruct (int_body false 0 _) as [z|] eqn:E; [|done]);
      intros [= <-]; specialize (Hb z eq_refl); lia.
Qed.

Lemma digits_or_zero_nonneg tok n : digits_or_zero tok = Ret n -> 0 <= n.
Proof.
  unfold digits_or_zero. destruct (isdigit tok) eqn:E.
  - by apply py_int_digits_nonneg.
  - intros [= <-]. lia.
Qed.

Lemma entry_of_fields_nonneg ip ts m p pr st sz line e :
  entry_of_fields ip ts m p pr st sz line = Ret (Some e) -> nonneg_entry e.
Proof.
  unfold entry_of_fields.
  destruct (String.eqb sz "-"); simpl; [done|].
  destruct (digits_or_zero sz) as [n|] eqn:En; simpl; [|done].
  destruct (parse_apache_timestamp ts) as [t|]; simpl; [|done].
  destruct (digits_or_zero st) as [k|] eqn:Ek; simpl; [|done].
  intros [= <-]. split; simpl; by eapply digits_or_zero_nonneg.
Qed.

(** ** The field map of a delimited file *)

Lemma role_key_inj r r' : role_key r = role_key r' -> r = r'.
Proof. destruct r, r'; simpl; congruence. Qed.

(** One step of the loop assigns the column to its role, if it has one. *)
Lemma assign_column_role field_map i header :
  assign_column field_map i header
  = match column_role header with
    | Some r => <[role_key r := i]> field_map
    | None => field_map
    end.
Proof.
  unfold assign_column, column_role, roles, matches_role, role_keywords.
  fold (normalise header). cbn [List.find existsb].
  rewrite !orb_false_r, !orb_assoc.
  repeat match goal with
         | |- context [if ?b then _ else _] => destruct b; [reflexivity|]
         end.
  reflexivity.
Qed.

Lemma assign_column_lookup field_map i header r :
  assign_column field_map i header !! role_key r
  = if bool_decide (column_role header = Some r) then Some i
    else field_map !! role_key r.
Proof.
  rewrite assign_column_role. destruct (column_role header) as [r'|].
  - case_bool_decide as E.
    + injection E as ->. apply lookup_insert_eq.
    + apply lookup_insert_ne. intros H. apply role_key_inj in H. congruence.
  - by rewrite bool_decide_eq_false_2.
Qed.

Lemma detect_from_snoc headers header : forall i field_map,
  detect_from i (headers ++ [header]) field_map
  = assign_column (detect_from i headers field_map) (i + length headers) header.
Proof.
  induction headers as [|h rest IH]; intros i field_map; simpl.
  - by rewrite Nat.add_0_r.
  - rewrite IH. f_equal. lia.
Qed.

Lemma detect_csv_fields_snoc headers header :
  detect_csv_fields (headers ++ [header])
  = assign_column (detect_csv_fields headers) (length headers) header.
Proof. unfold detect_csv_fields. by rewrite detect_from_snoc. Qed.

Lemma last_column_snoc_hit r headers h :
  column_role h = Some r ->
  forall i, last_column r (headers ++ [h]) i <-> i = length headers.
Proof.
  intros Hr i. split.
  - intros (before & h0 & after & Heq & <- & Hh0 & Hafter).
    destruct after as [|x after _] using rev_ind.
    + apply app_inj_tail in Heq as [-> _]. done.
    + rewrite app_comm_cons, app_assoc in Heq.
      apply app_inj_tail in Heq as [_ <-].
      apply Forall_app in Hafter as [_ Hx].
      by inversion Hx.
  - intros ->. by exists headers, h, [].
Qed.

Lemma last_column_snoc_miss r headers h :
  column_role h <> Some r ->
  forall i, last_column r (headers ++ [h]) i <-> last_column r headers i.
Proof.
  intros Hr i. split.
  - intros (before & h0 & after & Heq & <- & Hh0 & Hafter).
    destruct after as [|x after _] using rev_ind.
    + apply app_inj_tail in Heq as [_ ->]. done.
    + rewrite app_comm_cons, app_assoc in Heq.
      apply app_inj_tail in Heq as [-> _].
      apply Forall_app in Hafter as [Hafter _].
      by exists before, h0, after.
  - intros (before & h0 & after & -> & <- & Hh0 & Hafter).
    exists before, h0, (after ++ [h])%list. repeat split; [|done|].
    + by rewrite <- app_assoc.
    + apply Forall_app. split; [done|]. by constructor.
Qed.

Lemma detect_csv_fields_last headers r i :
  detect_csv_fields headers !! role_key r = Some i <-> last_column r headers i.
Proof.
  revert i. induction headers as [|h headers IH] using rev_ind; intros i.
  - split; [done|]. intros (before & h & after & Heq & _).
    by destruct before.
  - rewrite detect_csv_fields_snoc, assign_column_lookup.
    case_bool_decide as E.
    + rewrite (last_column_snoc_hit r headers h E). split; congruence.
    + rewrite (last_column_snoc_miss r headers h E). apply IH.
Qed.

Lemma column_role_first header r :
  column_role header = Some r
  <-> matches_role header r = true
      /\ forall r', (role_rank r' < role_rank r)%nat ->
                    matches_role header r' = false.
Proof.
  unfold column_role, roles. cbn [List.find]. split.
  - intros H. repeat case_match; simplify_eq; (split; [done|]);
      intros r' Hr'; destruct r'; simpl in Hr'; try lia; done.
  - intros [Hm Hlt].
    destruct r;
      try rewrite (Hlt RIp) by (simpl; lia);
      try rewrite (Hlt RTimestamp) by (simpl; lia);
      try rewrite (Hlt RMethod) by (simpl; lia);
      try rewrite (Hlt RPath) by (simpl; lia);
      try rewrite (Hlt RStatus) by (simpl; lia);
      by rewrite Hm.
Qed.

(** C10. The field map gives a role the index of the last column whose
    role it is, a later column of the same role replacing an earlier
    one; and the role of a column is the first role, in precedence
    order, whose keywords its header contains, so that a column that
    matched an earlier role is never given to a later one. *)
Theorem last_matching_column_wins headers r i :
  (detect_csv_fields headers !! role_key r = Some i
   <-> exists (before : list string) (h : string) (after : list string),
         headers = (before ++ h :: after)%list /\ length before = i
         /\ column_role h = Some r
         /\ Forall (fun h' => column_role h' <> Some r) after)
  /\ (forall h, column_role h = Some r
                <-> matches_role h r = true
                    /\ forall r', (role_rank r' < role_rank r)%nat ->
                                  matches_role h r' = false).
Proof.
  split; [apply detect_csv_fields_last | intros h; apply column_role_first].
Qed.

Lemma last_matching_column_wins_witness :
  detect_csv_fields sample_headers !! "ip" = Some 1%nat
  /\ matches_role "request_time" RPath = true
  /\ column_role "request_time" = Some RTimestamp
  /\ detect_csv_fields sample_headers !! "path" = Some 3%nat.
Proof.
  split; [|split; [|split]]; [| reflexivity | | reflexivity].
  - apply (proj2 (proj1 (last_matching_column_wins sample_headers RIp 1))).
    exists ["client_ip"], "IP Address", ["request_time"; "url"].
    split; [reflexivity|]. split; [reflexivity|]. split; [reflexivity|].
    repeat constructor; vm_compute; discriminate.
  - apply (proj2 (proj2 (last_matching_column_wins sample_headers
                           RTimestamp 2) "request_time")).
    split; [reflexivity|]. intros r' Hr'.
    destruct r'; simpl in Hr'; try lia; reflexivity.
Defined.

(** ** Delimited files *)

Section ParserFacts.
Variable fromisoformat : string -> option datetime.

Lemma csv_line_body_nonneg values field_map line e :
  csv_line_body fromisoformat values field_map line = Ret (Some e) ->
  nonneg_entry e.
Proof.
  unfold csv_line_body, rbind. intros H.
  repeat case_match; simplify_eq; split; simpl;
    first [ lia | by eapply digits_or_zero_nonneg ].
Qed.

Lemma parse_csv_line_nonneg values field_map line e :
  parse_csv_line fromisoformat values field_map line = Ret (Some e) ->
  nonneg_entry e.
Proof.
  unfold parse_csv_line. intros H. apply (csv_line_body_nonneg values field_map line).
  by repeat case_match; simplify_eq.
Qed.

Lemma csv_rows_nonneg delimiter field_map lines : forall i es errs es' errs',
  Forall nonneg_entry es ->
  csv_rows fromisoformat delimiter field_map i lines es errs = Ret (es', errs') ->
  Forall nonneg_entry es'.
Proof.
  induction lines as [|line rest IH]; intros i es errs es' errs' Hes; simpl.
  - by intros [= <- <-].
  - destruct (is_empty (strip line)); [by apply IH|].
    destruct (parse_csv_line _ _ _ _) as [[e|]|] eqn:E; simpl; [| |done].
    + apply IH. apply Forall_app. split; [done|].
      constructor; [|done]. by eapply parse_csv_line_nonneg.
    + by apply IH.
Qed.

Lemma log_lines_nonneg lines : forall i es errs es' errs',
  Forall nonneg_entry es ->
  log_lines i lines es errs = Ret (es', errs') ->
  Forall nonneg_entry es'.
Proof.
  induction lines as [|line rest IH]; intros i es errs es' errs' Hes; simpl.
  - by intros [= <- <-].
  - destruct (parse_log_line_cases line) as [-> | ->]; simpl; [|done].
    by apply IH.
Qed.

Lemma parse_csv_file_nonneg lines es errs :
  parse_csv_file fromisoformat lines = Ret (es, errs) ->
  Forall nonneg_entry es.
Proof.
  unfold parse_csv_file. destruct lines as [|first data].
  - by intros [= <- <-].
  - case_match.
    + by intros [= <- <-].
    + by apply csv_rows_nonneg.
Qed.

(** C8. The records [parse_log_file] returns, whether the file was
    read as delimited or line by line, have a size and a status that
    are not negative; so has every record [parse_csv_line] returns and
    every record the body of [parse_log_line] builds. *)
Theorem records_not_negative :
  (forall content es errs,
      parse_log_file fromisoformat content = Ret (es, errs) ->
      Forall nonneg_entry es)
  /\ (forall values field_map line e,
        parse_csv_line fromisoformat values field_map line = Ret (Some e) ->
        0 <= e_size e /\ 0 <= e_status e)
  /\ (forall ip ts m p pr st sz line e,
        entry_of_fields ip ts m p pr st sz line = Ret (Some e) ->
        0 <= e_size e /\ 0 <= e_status e).
Proof.
  split; [|split].
  - intros content es errs. unfold parse_log_file.
    destruct (nonblank_lines content) as [|first rest].
    + by intros [= <- <-].
    + destruct (detect_csv_format first).
      * apply parse_csv_file_nonneg.
      * by apply log_lines_nonneg.
  - apply parse_csv_line_nonneg.
  - apply entry_of_fields_nonneg.
Qed.

(** C6. A delimited file whose header gives the field map neither the
    address role nor the path role is rejected as a whole: no record,
    and the one diagnostic of the rejection, whatever its rows are. *)
Theorem unrecognised_header_rejected :
  (forall first_line data,
      detect_csv_fields (csv_headers first_line) !! role_key RIp = None ->
      detect_csv_fields (csv_headers first_line) !! role_key RPath = None ->
      parse_csv_file fromisoformat (first_line :: data)
      = Ret ([], [no_fields_message]))
  /\ (forall content first_line data,
        nonblank_lines content = first_line :: data ->
        detect_csv_format first_line = true ->
        detect_csv_fields (csv_headers first_line) !! role_key RIp = None ->
        detect_csv_fields (csv_headers first_line) !! role_key RPath = None ->
        parse_log_file fromisoformat content
        = Ret ([], [no_fields_message])).
Proof.
  assert (forall first_line data,
    detect_csv_fields (csv_headers first_line) !! role_key RIp = None ->
    detect_csv_fields (csv_headers first_line) !! role_key RPath = None ->
    parse_csv_file fromisoformat (first_line :: data)
    = Ret ([], [no_fields_message])) as Hcsv.
  { intros first_line data Hip Hpath. simpl in *.
    by rewrite !bool_decide_eq_true_2. }
  split; [exact Hcsv|].
  intros content first_line data Hl Hd Hip Hpath.
  unfold parse_log_file. rewrite Hl, Hd. by apply Hcsv.
Qed.
End ParserFacts.

Lemma records_not_negative_witness :
  Forall nonneg_entry
    [mk_entry "1.2.3.4" None "GET" "/a" "HTTP/1.1" 200 500 "1.2.3.4,/a,200,500"]
  /\ (0 <= 1024 /\ 0 <= 200).
Proof.
  destruct (records_not_negative iso_basic) as (H1 & _ & H3). split.
  - apply (H1 sample_csv _ []). vm_compute. reflexivity.
  - apply (H3 "10.0.0.1" "10/Oct/2020:13:55:36 +0000" "GET" "/index.html"
             "HTTP/1.1" "200" "1024" sample_line
             (mk_entry "10.0.0.1" (Some sample_instant) "GET" "/index.html"
                "HTTP/1.1" 200 1024 sample_line)).
    vm_compute. reflexivity.
Defined.

Lemma unrecognised_header_rejected_witness :
  parse_csv_file iso_basic ["user,agent,date"; "bob,curl,2020-10-10"]
  = Ret ([], [no_fields_message])
  /\ parse_log_file iso_basic unknown_csv = Ret ([], [no_fields_message]).
Proof.
  destruct (unrecognised_header_rejected iso_basic) as [H1 H2]. split.
  - apply H1; vm_compute; reflexivity.
  - apply (H2 unknown_csv "user,agent,date" ["bob,curl,2020-10-10"]);
      vm_compute; reflexivity.
Defined.

(** ** The status filter *)

Lemma status_condition_spec code r :
  status_condition code r = true <-> code_matches code (row_status r).
Proof.
  unfold status_condition, code_matches. case_bool_decide as E.
  - rewrite andb_true_iff, Z.leb_le, Z.ltb_lt. split.
    + intros [H1 H2]. left. split; [done | lia].
    + intros [[_ H] | [H _]]; [lia | done].
  - rewrite Z.eqb_eq. split.
    + intros H. by right.
    + by intros [[H _] | [_ H]].
Qed.

Lemma fold_or_exists (r : Row) conds : forall b,
  foldl (fun combined cond => combined || cond r) b conds
  = b || existsb (fun cond => cond r) conds.
Proof.
  induction conds as [|c conds IH]; intros b; simpl.
  - by rewrite orb_false_r.
  - by rewrite IH, orb_assoc.
Qed.

Lemma combine_spec codes r :
  codes <> [] ->
  combine (map status_condition codes) r = true
  <-> exists c, In c codes /\ code_matches c (row_status r).
Proof.
  intros Hne. destruct codes as [|c0 rest]; [done|]. simpl.
  rewrite fold_or_exists, orb_true_iff, existsb_exists. split.
  - intros [H | (cond & Hin & H)].
    + exists c0. split; [by left | by apply status_condition_spec].
    + apply in_map_iff in Hin as (c & <- & Hc).
      exists c. split; [by right | by apply status_condition_spec].
  - intros (c & [<- | Hin] & H); apply status_condition_spec in H.
    + by left.
    + right. exists (status_condition c). split; [|done].
      apply in_map_iff. by exists c.
Qed.

(** C3. With a list of status codes that is not empty, a record passes
    the status filter exactly when some listed code matches its status,
    a code among 200, 300, 400 and 500 matching the statuses from the
    code up to, not including, the code plus 100, and any other code
    matching itself only.  With the codes 404 and 500 the statuses 503,
    404 and 501 pass.  The status filter is what [apply_filters] does
    when no other clause is given. *)
Theorem status_filter_by_class fromisoformat codes df :
  codes <> [] ->
  (forall r, In r (status_filter df codes)
             <-> In r df /\ exists c, In c codes
                                      /\ code_matches c (row_status r))
  /\ (forall r, In r df -> row_status r ∈ [503; 404; 501] ->
                In r (status_filter df [404; 500]))
  /\ apply_filters fromisoformat df (with_status_codes codes no_filters)
     = Ret (status_filter df codes).
Proof.
  intros Hne. split; [|split].
  - intros r. destruct codes as [|c0 rest] eqn:E; [done|].
    rewrite <- E in *. unfold status_filter. rewrite E at 1.
    rewrite filter_In. by rewrite combine_spec.
  - intros r Hin Hst. unfold status_filter. apply filter_In. split; [done|].
    apply combine_spec; [done|].
    apply elem_of_cons in Hst as [-> | Hst];
      [|apply elem_of_cons in Hst as [-> | Hst];
        [|apply list_elem_of_singleton in Hst as ->]].
    + exists 500. split; [simpl; tauto|]. left. split; [set_solver | lia].
    + exists 404. split; [simpl; tauto|]. right. split; [|done].
      intros H. repeat (apply elem_of_cons in H as [H | H]; [lia|]).
      by apply not_elem_of_nil in H.
    + exists 500. split; [simpl; tauto|]. left. split; [set_solver | lia].
  - destruct codes; [done|]. reflexivity.
Qed.

Lemma status_filter_by_class_witness :
  In (status_row 503) (status_filter [status_row 200; status_row 503] [404; 500])
  /\ ~ In (status_row 200)
         (status_filter [status_row 200; status_row 503] [404; 500]).
Proof.
  pose proof (status_filter_by_class iso_basic [404; 500]
                [status_row 200; status_row 503]) as H.
  destruct H as (H1 & H2 & _); [discriminate|]. split.
  - apply H2; [simpl; tauto | by constructor].
  - intros Hin. apply H1 in Hin as (_ & c & Hc & Hm).
    unfold code_matches in Hm.
    destruct Hc as [<- | [<- | []]];
      destruct Hm as [[_ Hm] | [_ Hm]]; simpl in Hm; lia.
Defined.

(** ** Hourly traffic *)

Lemma hour_in_range (t : datetime) : 0 <= hour t < 24.
Proof.
  pose proof (dt_ok t) as H. unfold fields_ok, in_range in H.
  repeat (apply andb_true_iff in H as [H ?]).
  repeat match goal with
         | X : (_ <=? _) = true |- _ => apply Z.leb_le in X
         end.
  lia.
Qed.

(** A lower bound of the keys of a list is one for any smaller key. *)
Ltac raise_bound H :=
  eapply Forall_impl; [exact H|]; intros ? ?; cbn in *; lia.

Lemma last_value_above groups k :
  Forall (fun b => k < b.1) groups -> last_value groups k = None.
Proof.
  induction 1 as [|[k' v] rest Hk _ IH]; simpl; [done|].
  rewrite IH. simpl in Hk.
  destruct (Z.eqb_spec k k'); [lia | done].
Qed.

Lemma last_value_cons k' v rest k :
  ascending ((k', v) :: rest) ->
  last_value ((k', v) :: rest) k
  = if k =? k' then Some v else last_value rest k.
Proof.
  intros H. apply StronglySorted_inv in H as [_ H]. simpl.
  destruct (Z.eqb_spec k k') as [->|].
  - by rewrite last_value_above.
  - by destruct (last_value rest k).
Qed.

Lemma count_key_above k groups k0 :
  k0 < k -> Forall (fun b => k0 < b.1) groups ->
  Forall (fun b => k0 < b.1) (count_key k groups).
Proof.
  intros Hk. induction 1 as [|[k' v] rest Hk' Hrest IH]; simpl.
  - by repeat constructor.
  - destruct (k <? k'); [|destruct (k =? k')].
    + constructor; [done|]. by constructor.
    + by constructor.
    + by constructor.
Qed.

Lemma count_key_ascending k groups :
  ascending groups -> ascending (count_key k groups).
Proof.
  unfold ascending. induction 1 as [|[k' v] rest Hs IH Hall]; simpl.
  - by repeat constructor.
  - destruct (Z.ltb_spec k k').
    + constructor; [by constructor|].
      constructor; [done|].
      raise_bound Hall.
    + destruct (Z.eqb_spec k k') as [->|].
      * by constructor.
      * constructor; [done|]. apply count_key_above; [simpl; lia | done].
Qed.

Lemma count_key_value k groups j :
  ascending groups ->
  last_value (count_key k groups) j
  = if j =? k then Some (S (default 0%nat (last_value groups j)))
    else last_value groups j.
Proof.
  intros Hs. induction groups as [|[k' v] rest IH]; simpl count_key.
  - simpl. by destruct (j =? k).
  - pose proof Hs as Hs'. apply StronglySorted_inv in Hs' as [Hrest Hall].
    destruct (Z.ltb_spec k k').
    + rewrite last_value_cons.
      2:{ constructor; [done|]. constructor; [done|].
          raise_bound Hall. }
      destruct (Z.eqb_spec j k) as [->|]; [|done].
      rewrite last_value_above; [done|].
      constructor; [done|].
      raise_bound Hall.
    + destruct (Z.eqb_spec k k') as [->|].
      * rewrite !last_value_cons by (done || by constructor).
        by destruct (j =? k').
      * rewrite !last_value_cons;
          [| done | constructor;
                    [by apply count_key_ascending
                    | apply count_key_above; [simpl; lia | done]]].
        rewrite (IH Hrest).
        destruct (Z.eqb_spec j k') as [->|]; [|done].
        destruct (Z.eqb_spec k' k); [lia | done].
Qed.

Lemma group_count_spec keys :
  ascending (group_count keys)
  /\ forall j, default 0%nat (last_value (group_count keys) j)
               = occurrences j keys.
Proof.
  unfold group_count, occurrences.
  induction keys as [|k keys IH] using rev_ind.
  - split; [constructor | done].
  - destruct IH as [Hs Hv]. rewrite foldl_app. simpl. split.
    + by apply count_key_ascending.
    + intros j. rewrite count_key_value by done.
      rewrite List.filter_app, length_app. simpl.
      destruct (Z.eqb_spec j k) as [->|]; simpl; rewrite <- Hv; lia.
Qed.

Lemma dict_of_from pairs : forall (d : gmap Z nat) j,
  foldl (fun d kv => <[kv.1 := kv.2]> d) d pairs !! j
  = match last_value pairs j with
    | Some v => Some v
    | None => d !! j
    end.
Proof.
  induction pairs as [|[k v] rest IH]; intros d j; simpl; [done|].
  rewrite IH. destruct (last_value rest j); [done|].
  destruct (Z.eqb_spec j k) as [->|].
  - apply lookup_insert_eq.
  - by apply lookup_insert_ne.
Qed.

Lemma dict_of_lookup pairs j : dict_of pairs !! j = last_value pairs j.
Proof.
  unfold dict_of. rewrite dict_of_from.
  by destruct (last_value pairs j).
Qed.

Lemma occurrences_hours df h :
  occurrences h (map hour (omap row_timestamp df)) = rows_at_hour h df.
Proof.
  unfold occurrences, rows_at_hour.
  induction df as [|r df IH]; [done|].
  cbn [omap list_omap List.filter].
  destruct (row_timestamp r) as [t|]; [|exact IH].
  cbn [map List.filter length].
  rewrite (Z.eqb_sym h). destruct (hour t =? h); simpl; by rewrite IH.
Qed.

Lemma hour_count_value df h :
  default 0%nat
    (dict_of (group_count (map hour (omap row_timestamp df))) !! h)
  = rows_at_hour h df.
Proof.
  rewrite dict_of_lookup.
  destruct (group_count_spec (map hour (omap row_timestamp df))) as [_ ->].
  apply occurrences_hours.
Qed.

Lemma sum_list_map_add {X} (f g : X -> nat) l :
  sum_list (map (fun x => (f x + g x)%nat) l)
  = (sum_list (map f l) + sum_list (map g l))%nat.
Proof. induction l as [|x l IH]; simpl; [done|]. rewrite IH. lia. Qed.

(** Every hour of the day is one entry of [range 24]. *)
Lemma one_hour_slot k :
  0 <= k < 24 ->
  sum_list (map (fun h => if h =? k then 1%nat else 0%nat) (range 24)) = 1%nat.
Proof.
  intros H.
  assert (exists n : nat, (n < 24)%nat /\ k = Z.of_nat n) as (n & Hn & ->).
  { exists (Z.to_nat k). lia. }
  do 24 (destruct n as [|n]; [reflexivity|]). lia.
Qed.

Lemma rows_at_hour_cons_some r t df h :
  row_timestamp r = Some t ->
  rows_at_hour h (r :: df)
  = ((if (h =? hour t)%Z then 1 else 0) + rows_at_hour h df)%nat.
Proof.
  intros Hr. unfold rows_at_hour. cbn [List.filter]. rewrite Hr.
  rewrite (Z.eqb_sym h). by destruct (hour t =? h).
Qed.

Lemma rows_at_hour_cons_none r df h :
  row_timestamp r = None -> rows_at_hour h (r :: df) = rows_at_hour h df.
Proof. intros Hr. unfold rows_at_hour. cbn [List.filter]. by rewrite Hr. Qed.

Lemma rows_at_hour_total df :
  sum_list (map (fun h => rows_at_hour h df) (range 24))
  = length (omap row_timestamp df).
Proof.
  induction df as [|r df IH]; [reflexivity|].
  cbn [omap list_omap]. destruct (row_timestamp r) as [t|] eqn:Hr.
  - rewrite (map_ext _ _ (fun h => rows_at_hour_cons_some r t df h Hr)).
    rewrite sum_list_map_add, IH, one_hour_slot by apply hour_in_range.
    reflexivity.
  - rewrite (map_ext _ _ (fun h => rows_at_hour_cons_none r df h Hr)).
    exact IH.
Qed.

Lemma omap_length_le df : (length (omap row_timestamp df) <= length df)%nat.
Proof.
  induction df as [|r df IH]; [done|].
  cbn [omap list_omap]. destruct (row_timestamp r); cbn [length]; lia.
Qed.

Lemma omap_length_all df :
  Forall (fun r => row_timestamp r <> None) df ->
  length (omap row_timestamp df) = length df.
Proof.
  induction 1 as [|r df Hr _ IH]; [done|].
  cbn [omap list_omap].
  destruct (row_timestamp r); [cbn [length]; by rewrite IH | done].
Qed.

(** C4. Whatever the records, the hourly traffic has 24 entries, one for
    each of the hours 0 to 23 in order; the count of an hour is the
    number of records with a timestamp in that hour, hence zero for an
    hour without records; records without a timestamp are counted
    nowhere, so the counts add up to at most the number of records, and
    to exactly that number when every record has a timestamp. *)
Theorem hourly_traffic_dense df :
  length (hourly_traffic_counter df) = 24%nat
  /\ map hc_hour (hourly_traffic_counter df)
     = [0; 1; 2; 3; 4; 5; 6; 7; 8; 9; 10; 11; 12; 13; 14; 15; 16; 17; 18;
        19; 20; 21; 22; 23]
  /\ (forall hc, In hc (hourly_traffic_counter df) ->
                 hc_count hc = rows_at_hour (hc_hour hc) df)
  /\ (forall h, rows_at_hour h df = 0%nat ->
                forall hc, In hc (hourly_traffic_counter df) ->
                           hc_hour hc = h -> hc_count hc = 0%nat)
  /\ total_count (hourly_traffic_counter df)
     = length (omap row_timestamp df)
  /\ (total_count (hourly_traffic_counter df) <= length df)%nat
  /\ (Forall (fun r => row_timestamp r <> None) df ->
      total_count (hourly_traffic_counter df) = length df).
Proof.
  assert (forall hc, In hc (hourly_traffic_counter df) ->
                     hc_count hc = rows_at_hour (hc_hour hc) df) as Hc.
  { intros hc Hin. unfold hourly_traffic_counter in Hin.
    apply in_map_iff in Hin as (h & <- & _). simpl. apply hour_count_value. }
  assert (total_count (hourly_traffic_counter df)
          = length (omap row_timestamp df)) as Ht.
  { rewrite <- rows_at_hour_total. unfold total_count, hourly_traffic_counter.
    rewrite map_map. f_equal. apply map_ext. intros h. simpl.
    apply hour_count_value. }
  split; [|split; [|split; [|split; [|split; [|split]]]]].
  - unfold hourly_traffic_counter. by rewrite length_map.
  - unfold hourly_traffic_counter. rewrite map_map. apply map_id.
  - exact Hc.
  - intros h Hz hc Hin <-. by rewrite Hc.
  - exact Ht.
  - rewrite Ht. apply omap_length_le.
  - intros Hall. rewrite Ht. by apply omap_length_all.
Qed.

Lemma hourly_traffic_dense_witness :
  hc_count (mk_hour_count 13 1) = rows_at_hour 13 [timed_row; untimed_row]
  /\ total_count (hourly_traffic_counter [timed_row; timed_row]) = 2%nat.
Proof.
  split.
  - destruct (hourly_traffic_dense [timed_row; untimed_row])
      as (_ & _ & H & _).
    apply (H (mk_hour_count 13 1)). vm_compute. tauto.
  - destruct (hourly_traffic_dense [timed_row; timed_row])
      as (_ & _ & _ & _ & _ & _ & H).
    apply H. repeat constructor; discriminate.
Defined.

(** ** Bounds that do not parse *)

Section AnalyzerFacts.
Variable fromisoformat : string -> option datetime.

(** A bound that is a string and does not parse leaves its clause out:
    the result is the one of the specification without the bound. *)
Lemma bad_date_start_ignored df f s :
  fromisoformat s = None ->
  apply_filters fromisoformat df (with_date_start (PStr s) f)
  = apply_filters fromisoformat df (with_date_start PNone f).
Proof.
  intros H. unfold apply_filters. simpl. rewrite H.
  by destruct (is_empty s).
Qed.

Lemma bad_date_end_ignored df f s :
  fromisoformat s = None ->
  apply_filters fromisoformat df (with_date_end (PStr s) f)
  = apply_filters fromisoformat df (with_date_end PNone f).
Proof.
  intros H. unfold apply_filters. simpl. rewrite H.
  by destruct (is_empty s).
Qed.

Lemma bad_size_min_ignored df f s :
  py_int s = Raise ValueError ->
  apply_filters fromisoformat df (with_size_min (PStr s) f)
  = apply_filters fromisoformat df (with_size_min PNone f).
Proof.
  intros H. unfold apply_filters. simpl. rewrite H.
  by destruct (is_empty s).
Qed.

Lemma bad_size_max_ignored df f s :
  py_int s = Raise ValueError ->
  apply_filters fromisoformat df (with_size_max (PStr s) f)
  = apply_filters fromisoformat df (with_size_max PNone f).
Proof.
  intros H. unfold apply_filters. simpl. rewrite H.
  by destruct (is_empty s).
Qed.

(** C7. A date bound that is a number and a size bound that is a list
    are bounds that do not parse, and [apply_filters] does not leave
    their clauses out: the conversion raises [TypeError], which the
    handlers for [ValueError] let through. *)
Theorem non_string_bound_raises df f :
  apply_filters fromisoformat df (with_date_start (PInt 1602338136000) f)
  = Raise TypeError
  /\ apply_filters fromisoformat df
       (with_size_min (PList [PInt 100]) no_filters)
     = Raise TypeError.
Proof. split; reflexivity. Qed.
End AnalyzerFacts.

(** ** Examples *)

Example parse_sample_csv :
  parse_log_file iso_basic sample_csv
  = Ret ([mk_entry "1.2.3.4" None "GET" "/a" "HTTP/1.1" 200 500
            "1.2.3.4,/a,200,500"], []).
Proof. vm_compute. reflexivity. Qed.

Example parse_unmatched_lines :
  parse_log_file iso_basic ("first" ++ String newline (String newline "second"))
  = Ret ([], [unable_to_parse 1 "first"; unable_to_parse 2 "second"]).
Proof. vm_compute. reflexivity. Qed.

Example timestamp_bad_month :
  parse_apache_timestamp "31/Foo/2020:13:55:36 +0000"
  = Ret (Some (mk_dt 2020 1 31 13 55 36 eq_refl)).
Proof. vm_compute. reflexivity. Qed.

Example timestamp_bad_day :
  parse_apache_timestamp "31/Feb/2020:13:55:36" = Ret None.
Proof. vm_compute. reflexivity. Qed.

Example no_filters_keeps_all :
  apply_filters iso_basic [timed_row; untimed_row] no_filters
  = Ret [timed_row; untimed_row].
Proof. reflexivity. Qed.

Example date_bound_drops_untimed :
  apply_filters iso_basic [timed_row; untimed_row]
    (with_date_start (PStr "2020-01-01") no_filters)
  = Ret [timed_row].
Proof. vm_compute. reflexivity. Qed.

Example bad_date_bound_keeps_all :
  apply_filters iso_basic [timed_row; untimed_row]
    (with_date_start (PStr "yesterday") no_filters)
  = Ret [timed_row; untimed_row].
Proof. vm_compute. reflexivity. Qed.

(** * Further properties of the parser *)

(** ** Timestamps *)

Lemma py_int_raises s e : py_int s = Raise e -> e = ValueError.
Proof.
  unfold py_int. destruct (strip_with is_int_space s) as [|a t].
  - simpl. congruence.
  - repeat case_match; congruence.
Qed.

Lemma new_datetime_raises y mo d h mi s e :
  new_datetime y mo d h mi s = Raise e ->
  e = ValueError \/ e = OverflowError.
Proof.
  unfold new_datetime. repeat case_match; intros [= <-]; tauto.
Qed.

Lemma timestamp_of_groups_raises g e :
  timestamp_of_groups g = Raise e ->
  e = ValueError \/ e = TypeError \/ e = OverflowError.
Proof.
  unfold timestamp_of_groups, rbind. intros H.
  repeat case_match; simplify_eq;
    repeat match goal with
           | X : py_int _ = Raise _ |- _ => apply py_int_raises in X
           | X : new_datetime _ _ _ _ _ _ = Raise _ |- _ =>
               apply new_datetime_raises in X
           end;
    intuition congruence.
Qed.

(** X1. [parse_apache_timestamp] swallows [ValueError] and [TypeError]
    but not the [OverflowError] of the [datetime] constructor: whatever
    the string, the only exception that reaches the caller is
    [OverflowError], and a year too large for a C int does raise it. *)
Theorem timestamp_raises_only_overflow :
  (forall s e, parse_apache_timestamp s = Raise e -> e = OverflowError)
  /\ parse_apache_timestamp "10/Oct/99999999999:13:55:36 +0000"
     = Raise OverflowError.
Proof.
  split; [|vm_compute; reflexivity].
  intros s e. unfold parse_apache_timestamp.
  destruct (re_match TIMESTAMP_REGEX s) as [g|]; [|done].
  destruct (timestamp_of_groups g) as [t|e'] eqn:E; [done|].
  apply timestamp_of_groups_raises in E as [-> | [-> | ->]]; congruence.
Qed.

Lemma timestamp_raises_only_overflow_witness :
  OverflowError = OverflowError.
Proof.
  apply (proj1 timestamp_raises_only_overflow
           "10/Oct/99999999999:13:55:36 +0000").
  vm_compute. reflexivity.
Defined.

(** ** Files read line by line *)

(** X2. A file that is read line by line never yields a record: if the
    combined pattern matches one of its lines, [parse_log_file] raises
    [ValueError]; otherwise it returns no record and one diagnostic per
    line that is not blank, numbered from 1 in the order of the file. *)
Theorem line_file_outcome fromisoformat content first rest :
  nonblank_lines content = first :: rest ->
  detect_csv_format first = false ->
  parse_log_file fromisoformat content
  = if existsb matches_combined (nonblank_lines content)
    then Raise ValueError
    else Ret ([], diagnostics_from 1 (nonblank_lines content)).
Proof.
  intros Hl Hd. unfold parse_log_file. rewrite Hl, Hd.
  apply log_lines_outcome.
Qed.

Lemma line_file_outcome_witness :
  parse_log_file iso_basic
    ("first" ++ String newline (String newline "second"))
  = Ret ([], [unable_to_parse 1 "first"; unable_to_parse 2 "second"])
  /\ parse_log_file iso_basic
       ("first" ++ String newline sample_line) = Raise ValueError.
Proof.
  split.
  - etrans; [apply (line_file_outcome iso_basic _ "first" ["second"])|];
      vm_compute; reflexivity.
  - etrans; [apply (line_file_outcome iso_basic _ "first" [sample_line])|];
      vm_compute; reflexivity.
Defined.

(** ** Blank content *)

Lemma lstrip_all p s : str_all p s = true -> lstrip_with p s = EmptyString.
Proof.
  induction s as [|a s IH]; simpl; [done|].
  intros H. apply andb_true_iff in H as [-> H]. by apply IH.
Qed.

Lemma lstrip_all_inv p s : str_all p (lstrip_with p s) = true -> str_all p s = true.
Proof.
  induction s as [|a s IH]; simpl; [done|].
  destruct (p a) eqn:E; simpl; [done|]. by rewrite E.
Qed.

Lemma rstrip_empty_inv p s :
  rstrip_with p s = EmptyString -> str_all p s = true.
Proof.
  induction s as [|a s IH]; simpl; [done|].
  destruct (rstrip_with p s) eqn:E; [|done].
  destruct (p a); [|done]. intros _. by apply IH.
Qed.

Lemma strip_blank s :
  is_empty (strip s) = true <-> str_all is_space s = true.
Proof.
  unfold strip, strip_with. split.
  - intros H. apply lstrip_all_inv, rstrip_empty_inv.
    by destruct (rstrip_with is_space (lstrip_with is_space s)).
  - intros H. by rewrite lstrip_all.
Qed.

Lemma split_on_all p sep s :
  p sep = true ->
  str_all p s = true <-> Forall (fun t => str_all p t = true) (split_on sep s).
Proof.
  intros Hsep. induction s as [|a s IH]; simpl.
  - split; [by repeat constructor | done].
  - destruct (Ascii.eqb_spec a sep) as [->|].
    + rewrite Hsep. simpl. rewrite IH. split.
      * by constructor.
      * by inversion 1.
    + destruct (split_on sep s) as [|t ts] eqn:E.
      * rewrite andb_true_iff, IH. split.
        -- intros [Ha _]. constructor; [|done]. simpl. by rewrite Ha.
        -- intros H. inversion H as [|? ? Ha _]; subst. simpl in Ha.
           apply andb_true_iff in Ha as [Ha _]. by split.
      * rewrite andb_true_iff, IH. split.
        -- intros [Ha H]. inversion H; subst.
           constructor; [|done]. simpl. by rewrite Ha.
        -- intros H. inversion H as [|? ? Ha Hts]; subst. simpl in Ha.
           apply andb_true_iff in Ha as [Ha Ht]. split; [done|].
           by constructor.
Qed.

Lemma nonblank_lines_nil content :
  nonblank_lines content = [] <-> str_all is_space content = true.
Proof.
  unfold nonblank_lines.
  rewrite (split_on_all is_space newline content eq_refl).
  induction (split_on newline content) as [|t ts IH]; simpl.
  - split; [by constructor | done].
  - destruct (is_empty (strip t)) eqn:E; simpl.
    + rewrite IH. apply strip_blank in E. split.
      * by constructor.
      * by inversion 1.
    + split; [done|]. inversion 1 as [|? ? Ht _]; subst.
      apply strip_blank in Ht. congruence.
Qed.

Lemma unable_to_parse_not_empty_file i line :
  unable_to_parse i line <> "Empty file".
Proof. unfold unable_to_parse. simpl. discriminate. Qed.

Lemma csv_rows_errors fromisoformat delimiter field_map lines :
  forall i es errs es' errs',
    csv_rows fromisoformat delimiter field_map i lines es errs
    = Ret (es', errs') ->
    exists more,
      errs' = (errs ++ more)%list
      /\ Forall (fun m => exists j l, m = unable_to_parse j l) more.
Proof.
  induction lines as [|line rest IH]; intros i es errs es' errs'; simpl.
  - intros [= <- <-]. exists []. by rewrite app_nil_r.
  - destruct (is_empty (strip line)); [apply IH|].
    destruct (parse_csv_line _ _ _ _) as [[e|]|]; simpl; [| |done].
    + apply IH.
    + intros H. apply IH in H as (more & -> & Hm).
      exists (unable_to_parse i (strip line) :: more).
      rewrite <- app_assoc. split; [done|].
      constructor; [by eexists _, _ | done].
Qed.

(** X3. [parse_log_file] answers with no record and the single
    diagnostic [Empty file] exactly when the content is blank, that is,
    made of nothing but whitespace and line ends. *)
Theorem empty_file_iff_blank fromisoformat content :
  parse_log_file fromisoformat content = Ret ([], ["Empty file"])
  <-> str_all is_space content = true.
Proof.
  rewrite <- nonblank_lines_nil. unfold parse_log_file.
  destruct (nonblank_lines content) as [|first rest] eqn:El; [done|].
  split; [|done]. destruct (detect_csv_format first).
  - unfold parse_csv_file. case_match; [intros [=]|].
    intros Hr. apply csv_rows_errors in Hr as (more & Hmore & Hall).
    simpl in Hmore. subst more.
    inversion Hall as [|? ? (j & l & Hm) _]; subst.
    symmetry in Hm. by apply unable_to_parse_not_empty_file in Hm.
  - rewrite log_lines_outcome.
    destruct (existsb matches_combined (first :: rest)); [done|].
    cbn [diagnostics_from app]. intros H.
    assert (unable_to_parse 1 first = "Empty file") as Hm by congruence.
    by apply unable_to_parse_not_empty_file in Hm.
Qed.

Lemma empty_file_iff_blank_witness :
  parse_log_file iso_basic (" " ++ String newline (String tab EmptyString))
  = Ret ([], ["Empty file"]).
Proof. apply empty_file_iff_blank. reflexivity. Defined.
(** * Further properties of delimited files *)

(** ** The field map *)

Lemma assign_column_any_key field_map i header k j :
  assign_column field_map i header !! k = Some j ->
  (j = i /\ exists r, k = role_key r /\ column_role header = Some r)
  \/ field_map !! k = Some j.
Proof.
  rewrite assign_column_role. destruct (column_role header) as [r|]; [|by right].
  destruct (decide (role_key r = k)) as [<-|Hne].
  - rewrite lookup_insert_eq. intros [= <-]. left. eauto.
  - rewrite lookup_insert_ne by done. by right.
Qed.

(** X4. The field map has no key but the six roles, and the index it
    gives a role is the index of a column of the header whose role it
    is. *)
Theorem field_map_well_formed headers k i :
  detect_csv_fields headers !! k = Some i ->
  exists r h, k = role_key r /\ headers !! i = Some h
              /\ column_role h = Some r.
Proof.
  revert i. induction headers as [|h headers IH] using rev_ind; intros i.
  - done.
  - rewrite detect_csv_fields_snoc. intros H.
    apply assign_column_any_key in H as [(-> & r & -> & Hr) | H].
    + exists r, h. split; [done|]. split; [|done].
      by rewrite lookup_app_r, Nat.sub_diag.
    + apply IH in H as (r & h' & -> & Hh' & Hr).
      exists r, h'. split; [done|]. split; [|done].
      by apply lookup_app_l_Some.
Qed.

Lemma field_map_well_formed_witness :
  exists r h, "path" = role_key r /\ sample_headers !! 3%nat = Some h
              /\ column_role h = Some r.
Proof. apply field_map_well_formed. vm_compute. reflexivity. Defined.

(** X5. A role is missing from the field map exactly when no column of
    the header has that role. *)
Theorem field_map_missing_role headers r :
  detect_csv_fields headers !! role_key r = None
  <-> Forall (fun h => column_role h <> Some r) headers.
Proof.
  induction headers as [|h headers IH] using rev_ind.
  - split; [by constructor | done].
  - rewrite detect_csv_fields_snoc, assign_column_lookup, Forall_app.
    case_bool_decide as E.
    + split; [done|]. intros [_ H]. by inversion H.
    + rewrite IH. split.
      * intros H. split; [done|]. by repeat constructor.
      * by intros [H _].
Qed.

Lemma field_map_missing_role_witness :
  detect_csv_fields ["user"; "agent"; "date"] !! role_key RPath = None.
Proof.
  apply field_map_missing_role. repeat constructor; vm_compute; discriminate.
Defined.
(** ** Rows *)

Lemma parse_apache_timestamp_raises s e :
  parse_apache_timestamp s = Raise e -> e = OverflowError.
Proof.
  unfold parse_apache_timestamp.
  destruct (re_match TIMESTAMP_REGEX s) as [g|]; [|done].
  destruct (timestamp_of_groups g) as [t|e'] eqn:E; [done|].
  apply timestamp_of_groups_raises in E as [-> | [-> | ->]]; congruence.
Qed.

Lemma digits_or_zero_raises tok e : digits_or_zero tok = Raise e -> e = ValueError.
Proof.
  unfold digits_or_zero. destruct (isdigit tok); [apply py_int_raises | done].
Qed.

Lemma index_ret values i v : index values i = Ret v <-> values !! i = Some v.
Proof. unfold index. destruct (values !! i); split; congruence. Qed.

Lemma index_raises values i e : index values i = Raise e -> e = IndexError.
Proof. unfold index. destruct (values !! i); congruence. Qed.

Section RowFacts.
Variable fromisoformat : string -> option datetime.

Lemma csv_timestamp_raises ts e :
  csv_timestamp fromisoformat ts = Raise e ->
  e = OverflowError /\ parse_apache_timestamp ts = Raise OverflowError.
Proof.
  unfold csv_timestamp. destruct (fromisoformat _); [done|].
  intros H. pose proof (parse_apache_timestamp_raises _ _ H) as ->. done.
Qed.

Lemma rbind_ret {A B} (m : result A) (f : A -> result B) v :
  rbind m f = Ret v -> exists a, m = Ret a /\ f a = Ret v.
Proof. destruct m as [a|]; simpl; [eauto | done]. Qed.

Lemma column_stage values field_map key dflt v :
  match field_map !! key with
  | Some i => index values i
  | None => Ret dflt
  end = Ret v ->
  column_or values field_map key dflt = Some v.
Proof.
  unfold column_or. destruct (field_map !! key).
  - by intros ?%index_ret.
  - congruence.
Qed.

Lemma parse_csv_line_body values field_map line e :
  parse_csv_line fromisoformat values field_map line = Ret (Some e) ->
  csv_line_body fromisoformat values field_map line = Ret (Some e).
Proof.
  unfold parse_csv_line.
  destruct (csv_line_body _ _ _ _) as [|[]]; congruence.
Qed.

Lemma parse_csv_line_post values field_map line e :
  parse_csv_line fromisoformat values field_map line = Ret (Some e) ->
  column_or values field_map "ip" "unknown" = Some (e_ip e)
  /\ column_or values field_map "method" "GET" = Some (e_method e)
  /\ column_or values field_map "path" "/" = Some (e_path e)
  /\ (exists tok, column_or values field_map "status" "0" = Some tok
                 /\ digits_or_zero tok = Ret (e_status e))
  /\ (exists tok, column_or values field_map "size" "0" = Some tok
                 /\ tok <> EmptyString /\ tok <> "-"
                 /\ digits_or_zero tok = Ret (e_size e))
  /\ match field_map !! "timestamp" with
     | Some i => exists ts, values !! i = Some ts
                            /\ csv_timestamp fromisoformat ts
                               = Ret (e_timestamp e)
     | None => e_timestamp e = None
     end
  /\ e_protocol e = "HTTP/1.1" /\ e_raw_line e = line
  /\ ~ (e_ip e = "unknown" /\ e_path e = "/" /\ e_status e = 0).
Proof.
  intros H. apply parse_csv_line_body in H. unfold csv_line_body in H.
  apply rbind_ret in H as (ip & Hip & H).
  apply rbind_ret in H as (ts & Hts & H).
  apply rbind_ret in H as (method & Hmethod & H).
  apply rbind_ret in H as (path & Hpath & H).
  apply rbind_ret in H as (status & Hstatus & H).
  apply rbind_ret in H as (size & Hsize & H).
  apply column_stage in Hip, Hmethod, Hpath.
  destruct size as [size|]; [|done].
  destruct (String.eqb ip "unknown" && String.eqb path "/" && (status =? 0))
    eqn:Hsignal; [done|].
  injection H as <-. simpl.
  split; [done|]. split; [done|]. split; [done|]. split; [|split; [|split]].
  - unfold column_or. destruct (field_map !! "status") as [i|].
    + apply rbind_ret in Hstatus as (tok & Htok%index_ret & Hd). eauto.
    + injection Hstatus as <-. by exists "0".
  - unfold column_or. destruct (field_map !! "size") as [i|].
    + apply rbind_ret in Hsize as (tok & Htok%index_ret & Hd).
      destruct (is_empty tok) eqn:He; [done|].
      destruct (String.eqb_spec tok "-"); [done|]. simpl in Hd.
      apply rbind_ret in Hd as (sz & Hn & [= <-]).
      exists tok. repeat split; try done. by intros ->.
    + injection Hsize as <-. exists "0". by repeat split.
  - destruct (field_map !! "timestamp") as [i|].
    + apply rbind_ret in Hts as (s & Hs%index_ret & Ht). eauto.
    + by injection Hts as <-.
  - split; [done|]. split; [done|]. intros (-> & -> & ->). done.
Qed.

(** X6. A record [parse_csv_line] returns takes its address, method and
    path from the mapped columns of the row, with the defaults
    [unknown], [GET] and [/] for a role without a column; its status and
    size are the tokens of their columns read as digits, 0 for a role
    without a column, and the size token is neither empty nor the dash;
    its protocol is [HTTP/1.1], its raw line the line given, and it is
    not the record of a row without signal.  Every column it needed was
    within the row. *)
Theorem csv_record_fields values field_map line e :
  parse_csv_line fromisoformat values field_map line = Ret (Some e) ->
  column_or values field_map "ip" "unknown" = Some (e_ip e)
  /\ column_or values field_map "method" "GET" = Some (e_method e)
  /\ column_or values field_map "path" "/" = Some (e_path e)
  /\ (exists tok, column_or values field_map "status" "0" = Some tok
                 /\ digits_or_zero tok = Ret (e_status e))
  /\ (exists tok, column_or values field_map "size" "0" = Some tok
                 /\ tok <> EmptyString /\ tok <> "-"
                 /\ digits_or_zero tok = Ret (e_size e))
  /\ match field_map !! "timestamp" with
     | Some i => exists ts, values !! i = Some ts
                            /\ csv_timestamp fromisoformat ts
                               = Ret (e_timestamp e)
     | None => e_timestamp e = None
     end
  /\ e_protocol e = "HTTP/1.1" /\ e_raw_line e = line
  /\ ~ (e_ip e = "unknown" /\ e_path e = "/" /\ e_status e = 0).
Proof. apply parse_csv_line_post. Qed.

Lemma parse_csv_line_raises values field_map line ex :
  parse_csv_line fromisoformat values field_map line = Raise ex ->
  ex = OverflowError
  /\ exists i ts, field_map !! "timestamp" = Some i
                  /\ values !! i = Some ts
                  /\ parse_apache_timestamp ts = Raise OverflowError.
Proof.
  unfold parse_csv_line.
  destruct (csv_line_body _ _ _ _) as [|ex'] eqn:Hb; [done|].
  intros Hex. assert (ex' = ex) as -> by (destruct ex'; congruence).
  assert (ex <> IndexError /\ ex <> ValueError) as [Hi Hv]
    by (destruct ex; split; congruence).
  clear Hex. unfold csv_line_body in Hb.
  destruct (match field_map !! "ip" with Some _ => _ | None => _ end)
    as [ip|e1] eqn:Hip; simpl in Hb.
  2:{ destruct (field_map !! "ip"); [|done].
      apply index_raises in Hip. congruence. }
  destruct (match field_map !! "timestamp" with Some _ => _ | None => _ end)
    as [ts|e2] eqn:Hts; simpl in Hb.
  2:{ injection Hb as ->. destruct (field_map !! "timestamp") as [i|]; [|done].
      destruct (index values i) as [s|] eqn:Hs; simpl in Hts.
      - apply csv_timestamp_raises in Hts as [-> Hp].
        apply index_ret in Hs. split; [done|]. by exists i, s.
      - apply index_raises in Hs. congruence. }
  destruct (match field_map !! "method" with Some _ => _ | None => _ end)
    as [method|e3] eqn:Hm; simpl in Hb.
  2:{ destruct (field_map !! "method"); [|done].
      apply index_raises in Hm. congruence. }
  destruct (match field_map !! "path" with Some _ => _ | None => _ end)
    as [path|e4] eqn:Hp; simpl in Hb.
  2:{ destruct (field_map !! "path"); [|done].
      apply index_raises in Hp. congruence. }
  destruct (match field_map !! "status" with Some _ => _ | None => _ end)
    as [status|e5] eqn:Hst; simpl in Hb.
  2:{ destruct (field_map !! "status") as [i|]; [|done].
      destruct (index values i) as [s|] eqn:Hs; simpl in Hst.
      - apply digits_or_zero_raises in Hst. congruence.
      - apply index_raises in Hs. congruence. }
  destruct (match field_map !! "size" with Some _ => _ | None => _ end)
    as [size|e6] eqn:Hsz; simpl in Hb.
  2:{ destruct (field_map !! "size") as [i|]; [|done].
      destruct (index values i) as [s|] eqn:Hs; simpl in Hsz.
      - destruct (negb (is_empty s) && negb (String.eqb s "-")); [|done].
        destruct (digits_or_zero s) eqn:Hd; simpl in Hsz; [done|].
        apply digits_or_zero_raises in Hd. congruence.
      - apply index_raises in Hs. congruence. }
  repeat case_match; congruence.
Qed.

(** X7. [parse_csv_line] lets no [IndexError] and no [ValueError]
    through: the only exception that leaves it is the [OverflowError] of
    a timestamp, so that with no timestamp column, or with timestamps
    that convert, it always returns. *)
Theorem csv_line_raises_only_overflow values field_map line ex :
  parse_csv_line fromisoformat values field_map line = Raise ex ->
  ex = OverflowError
  /\ exists i ts, field_map !! "timestamp" = Some i
                  /\ values !! i = Some ts
                  /\ parse_apache_timestamp ts = Raise OverflowError.
Proof. apply parse_csv_line_raises. Qed.
End RowFacts.

Lemma csv_record_fields_witness :
  column_or ["1.2.3.4"; "/a"; "200"; "500"]
    (detect_csv_fields ["ip"; "path"; "status"; "bytes"]) "path" "/"
  = Some "/a".
Proof.
  assert (parse_csv_line iso_basic ["1.2.3.4"; "/a"; "200"; "500"]
            (detect_csv_fields ["ip"; "path"; "status"; "bytes"])
            "1.2.3.4,/a,200,500"
          = Ret (Some (mk_entry "1.2.3.4" None "GET" "/a" "HTTP/1.1" 200 500
                         "1.2.3.4,/a,200,500"))) as H
    by (vm_compute; reflexivity).
  destruct (csv_record_fields iso_basic _ _ _ _ H) as (_ & _ & Hp & _).
  exact Hp.
Defined.

Lemma csv_line_raises_only_overflow_witness :
  exists i ts, ({[ "ip" := 0%nat; "timestamp" := 1%nat ]} : gmap string nat)
                 !! "timestamp" = Some i
               /\ ["h"; "1/Jan/99999999999:0:0:0"] !! i = Some ts
               /\ parse_apache_timestamp ts = Raise OverflowError.
Proof.
  assert (parse_csv_line iso_basic ["h"; "1/Jan/99999999999:0:0:0"]
            {[ "ip" := 0%nat; "timestamp" := 1%nat ]} "row"
          = Raise OverflowError) as H
    by (vm_compute; reflexivity).
  destruct (csv_line_raises_only_overflow iso_basic _ _ _ _ H) as [_ Hx].
  exact Hx.
Defined.

(** ** The rows of a file *)

Section FileFacts.
Variable fromisoformat : string -> option datetime.

Lemma parse_csv_line_raw_line values field_map line e :
  parse_csv_line fromisoformat values field_map line = Ret (Some e) ->
  e_raw_line e = line.
Proof. intros H. by apply parse_csv_line_post in H as (_&_&_&_&_&_&_&?&_). Qed.

Lemma csv_rows_outcome delimiter field_map lines :
  forall i es errs es' errs',
    csv_rows fromisoformat delimiter field_map i lines es errs
    = Ret (es', errs') ->
    exists new_es new_errs,
      es' = (es ++ new_es)%list /\ errs' = (errs ++ new_errs)%list
      /\ (length new_es + length new_errs
          = length (List.filter nonblank lines))%nat
      /\ sublist (map e_raw_line new_es) (map strip lines)
      /\ Forall (fun m => exists j l,
                     lines !! j = Some l
                     /\ m = unable_to_parse (i + j) (strip l)) new_errs.
Proof.
  induction lines as [|line rest IH]; intros i es errs es' errs'.
  - simpl. intros [= <- <-]. exists [], [].
    rewrite !app_nil_r. repeat split; constructor.
  - cbn [csv_rows List.filter map]. unfold nonblank at 1.
    destruct (is_empty (strip line)) eqn:Ee; cbn [negb].
    + intros H. apply IH in H as (ne & nr & -> & -> & Hc & Hs & Hf).
      exists ne, nr. repeat split; try done.
      * by apply sublist_cons.
      * eapply Forall_impl; [exact Hf|]. intros m (j & l & Hj & ->).
        exists (S j), l. split; [done|]. f_equal. lia.
    + destruct (parse_csv_line _ _ _ _) as [[e|]|] eqn:Ep; simpl; [| |done].
      * intros H. apply IH in H as (ne & nr & -> & -> & Hc & Hs & Hf).
        exists (e :: ne), nr. rewrite <- app_assoc.
        repeat split; try done.
        -- simpl. lia.
        -- simpl. rewrite (parse_csv_line_raw_line _ _ _ _ Ep).
           by apply sublist_skip.
        -- eapply Forall_impl; [exact Hf|]. intros m (j & l & Hj & ->).
           exists (S j), l. split; [done|]. f_equal. lia.
      * intros H. apply IH in H as (ne & nr & -> & -> & Hc & Hs & Hf).
        exists ne, (unable_to_parse i (strip line) :: nr).
        rewrite <- app_assoc. repeat split; try done.
        -- simpl. lia.
        -- by apply sublist_cons.
        -- constructor.
           ++ exists 0%nat, line. split; [done|]. f_equal. lia.
           ++ eapply Forall_impl; [exact Hf|]. intros m (j & l & Hj & ->).
              exists (S j), l. split; [done|]. f_equal. lia.
Qed.

(** X8. When a delimited file with a recognised header is parsed, every
    data row that is not blank gives one record or one diagnostic; the
    records keep the order of the rows, each holding its row stripped as
    raw line; and each diagnostic names a row of the file, numbered with
    the header as row 1, and quotes that row stripped. *)
Theorem csv_file_accounting first_line data es errs :
  is_Some (detect_csv_fields (csv_headers first_line) !! "ip")
  \/ is_Some (detect_csv_fields (csv_headers first_line) !! "path") ->
  parse_csv_file fromisoformat (first_line :: data) = Ret (es, errs) ->
  (length es + length errs = length (List.filter nonblank data))%nat
  /\ sublist (map e_raw_line es) (map strip data)
  /\ Forall (fun m => exists j l,
                 data !! j = Some l
                 /\ m = unable_to_parse (2 + j) (strip l)) errs.
Proof.
  intros Hmap. unfold parse_csv_file.
  destruct (bool_decide _ && bool_decide _) eqn:Hb.
  - apply andb_true_iff in Hb as [H1%bool_decide_eq_true H2%bool_decide_eq_true].
    destruct Hmap as [[? Hm] | [? Hm]]; congruence.
  - intros H. apply csv_rows_outcome in H as (ne & nr & -> & -> & Hc & Hs & Hf).
    done.
Qed.

Lemma csv_rows_returns delimiter field_map lines :
  field_map !! "timestamp" = None ->
  forall i es errs,
    exists es' errs',
      csv_rows fromisoformat delimiter field_map i lines es errs
      = Ret (es', errs').
Proof.
  intros Hts. induction lines as [|line rest IH]; intros i es errs; simpl.
  - eauto.
  - destruct (is_empty (strip line)); [apply IH|].
    destruct (parse_csv_line _ _ _ _) as [[e|]|ex] eqn:Ep; simpl.
    + apply IH.
    + apply IH.
    + apply parse_csv_line_raises in Ep as (_ & j & ts & Hj & _). congruence.
Qed.

(** X9. A delimited file whose header has no timestamp column cannot
    make the parser raise: [parse_csv_file] returns records and
    diagnostics whatever the rows hold, short rows and tokens that are
    not numbers included. *)
Theorem csv_file_returns first_line data :
  detect_csv_fields (csv_headers first_line) !! "timestamp" = None ->
  exists es errs,
    parse_csv_file fromisoformat (first_line :: data) = Ret (es, errs).
Proof.
  intros H. simpl. case_match; [eauto|]. by apply csv_rows_returns.
Qed.
End FileFacts.

Lemma csv_file_accounting_witness :
  (length [mk_entry "1.2.3.4" None "GET" "/a" "HTTP/1.1" 200 500
             "1.2.3.4,/a,200,500"]
   + length [unable_to_parse 3 "9.9.9.9,/b,200,-"]
   = length (List.filter nonblank ["1.2.3.4,/a,200,500"; "9.9.9.9,/b,200,-"]))%nat.
Proof.
  assert (parse_csv_file iso_basic
            ["ip,path,status,bytes"; "1.2.3.4,/a,200,500"; "9.9.9.9,/b,200,-"]
          = Ret ([mk_entry "1.2.3.4" None "GET" "/a" "HTTP/1.1" 200 500
                    "1.2.3.4,/a,200,500"],
                 [unable_to_parse 3 "9.9.9.9,/b,200,-"])) as H
    by (vm_compute; reflexivity).
  assert (is_Some (detect_csv_fields (csv_headers "ip,path,status,bytes")
                     !! "ip")
          \/ is_Some (detect_csv_fields (csv_headers "ip,path,status,bytes")
                        !! "path")) as Hm
    by (left; vm_compute; eauto).
  destruct (csv_file_accounting iso_basic _ _ _ _ Hm H) as [Hc _].
  exact Hc.
Defined.

Lemma csv_file_returns_witness :
  exists es errs,
    parse_csv_file iso_basic ["ip,path,status,bytes"; "1.2.3.4"; "x,y,z,w"]
    = Ret (es, errs).
Proof. apply csv_file_returns. vm_compute. reflexivity. Defined.
(** ** Format detection *)

Lemma prefix_app sub s t :
  String.prefix sub s = true -> String.prefix sub (s ++ t) = true.
Proof.
  revert s. induction sub as [|a sub IH]; intros s.
  - intros _. by destruct (s ++ t).
  - destruct s as [|b s]; simpl; [done|].
    destruct (ascii_dec a b); [apply IH | done].
Qed.

Lemma contains_cons sub a s :
  contains sub (String a s) = String.prefix sub (String a s) || contains sub s.
Proof. reflexivity. Qed.

Lemma contains_app_l sub s t :
  contains sub s = true -> contains sub (s ++ t) = true.
Proof.
  induction s as [|a s IH].
  - simpl. rewrite orb_false_r. destruct sub; [|done].
    intros _. by destruct t.
  - change (String a s ++ t) with (String a (s ++ t)).
    rewrite !contains_cons, !orb_true_iff.
    intros [H | H]; [left | right; by apply IH].
    by apply (prefix_app sub (String a s)).
Qed.

Lemma contains_app_r sub s t :
  contains sub s = true -> contains sub (t ++ s) = true.
Proof.
  intros H. induction t as [|a t IH]; [done|].
  change (String a t ++ s) with (String a (t ++ s)).
  rewrite contains_cons, IH. apply orb_true_r.
Qed.

Lemma lower_app s t : lower (s ++ t) = lower s ++ lower t.
Proof.
  unfold lower. induction s as [|a s IH]; simpl; [done|]. by rewrite IH.
Qed.

Lemma has_char_app c s t : has_char c (s ++ t) = has_char c s || has_char c t.
Proof.
  induction s as [|a s IH]; simpl; [done|]. by rewrite IH, orb_assoc.
Qed.

(** X10. Format detection looks for its keywords and for the comma
    anywhere in the line: a line that contains, wherever and in whatever
    surroundings, a text detected as delimited is itself detected as
    delimited. *)
Theorem detect_csv_format_anywhere before s after :
  detect_csv_format s = true ->
  detect_csv_format (before ++ s ++ after) = true.
Proof.
  unfold detect_csv_format. rewrite !orb_true_iff, !existsb_exists.
  intros [(kw & Hin & Hk) | Hc].
  - left. exists kw. split; [done|]. rewrite !lower_app.
    by apply contains_app_r, contains_app_l.
  - right. rewrite !has_char_app, Hc. by rewrite orb_true_r.
Qed.

Lemma detect_csv_format_anywhere_witness :
  detect_csv_format
    ("10.0.0.1 - - [10/Oct/2020:13:55:36 +0000] GET /" ++ "Status"
     ++ " HTTP/1.1 200 5") = true.
Proof. apply detect_csv_format_anywhere. reflexivity. Defined.


(** * Further properties of the analyzer *)

(** ** Filters as one predicate *)

Lemma filter_filter {X} (p q : X -> bool) l :
  List.filter q (List.filter p l) = List.filter (fun x => p x && q x) l.
Proof.
  induction l as [|x l IH]; simpl; [done|].
  destruct (p x); simpl; [|done]. destruct (q x); by rewrite IH.
Qed.

Lemma filter_true {X} (l : list X) : List.filter (fun _ => true) l = l.
Proof. induction l as [|x l IH]; simpl; by rewrite ?IH. Qed.

Lemma filter_sublist {X} (p : X -> bool) l : sublist (List.filter p l) l.
Proof.
  induction l as [|x l IH]; simpl; [constructor|].
  destruct (p x); by constructor.
Qed.

Section FilterFacts.
Variable fromisoformat : string -> option datetime.

Lemma date_stage v cmp df :
  (if truthy v then
     except_ValueError_pass
       (let! t := py_fromisoformat fromisoformat v in
        Ret (List.filter (cmp t) df)) df
   else Ret df)
  = let! p := date_clause fromisoformat v cmp in Ret (List.filter p df).
Proof.
  unfold date_clause. destruct (truthy v); simpl; [|by rewrite filter_true].
  destruct (py_fromisoformat fromisoformat v) as [t|[]]; simpl;
    by rewrite ?filter_true.
Qed.

Lemma size_stage v cmp df :
  (if truthy v then
     except_ValueError_pass
       (let! n := py_int_of v in Ret (List.filter (cmp n) df)) df
   else Ret df)
  = let! p := size_clause v cmp in Ret (List.filter p df).
Proof.
  unfold size_clause. destruct (truthy v); simpl; [|by rewrite filter_true].
  destruct (py_int_of v) as [n|[]]; simpl; by rewrite ?filter_true.
Qed.

Lemma apply_filters_as_filter df f :
  apply_filters fromisoformat df f
  = let! p := filter_predicate fromisoformat f in Ret (List.filter p df).
Proof.
  unfold apply_filters, filter_predicate.
  rewrite date_stage.
  destruct (date_clause fromisoformat (date_start f) ts_ge) as [p1|]; [|done].
  cbn [rbind]. rewrite date_stage.
  destruct (date_clause fromisoformat (date_end f) ts_le) as [p2|]; [|done].
  cbn [rbind]. cbv zeta. rewrite size_stage.
  destruct (size_clause (size_min f) _) as [p3|]; [|done].
  cbn [rbind]. rewrite size_stage.
  destruct (size_clause (size_max f) _) as [p4|]; [|done].
  cbn [rbind]. f_equal. unfold plain_clauses, status_filter.
  destruct (is_empty (ipAddress f)), (is_empty (urlPattern f)),
    (statusCodes f) as [|c cs], (httpMethods f) as [|m ms];
    cbn [negb orb]; rewrite ?filter_filter;
    apply filter_ext; intros r; btauto.
Qed.

(** X11. Filtering only narrows: the rows [apply_filters] returns are
    rows of the input, in the order of the input, none twice. *)
Theorem filters_only_narrow df f df' :
  apply_filters fromisoformat df f = Ret df' ->
  sublist df' df /\ (length df' <= length df)%nat.
Proof.
  rewrite apply_filters_as_filter.
  destruct (filter_predicate fromisoformat f) as [p|]; [|done].
  intros [= <-]. split; [apply filter_sublist|].
  apply sublist_length, filter_sublist.
Qed.

(** X12. Filtering distributes over concatenation: the rows kept from
    two record sets put end to end are the rows kept from the first
    followed by the rows kept from the second. *)
Theorem filters_distribute df1 df2 f :
  apply_filters fromisoformat (df1 ++ df2) f
  = let! kept1 := apply_filters fromisoformat df1 f in
    let! kept2 := apply_filters fromisoformat df2 f in
    Ret (kept1 ++ kept2)%list.
Proof.
  rewrite !apply_filters_as_filter.
  destruct (filter_predicate fromisoformat f) as [p|]; [|done].
  simpl. by rewrite List.filter_app.
Qed.

(** X13. Filtering twice with one specification changes nothing more:
    the rows kept are kept again, all of them. *)
Theorem filters_idempotent df f df' :
  apply_filters fromisoformat df f = Ret df' ->
  apply_filters fromisoformat df' f = Ret df'.
Proof.
  rewrite !apply_filters_as_filter.
  destruct (filter_predicate fromisoformat f) as [p|]; [|done].
  simpl. intros [= <-]. rewrite filter_filter. f_equal.
  apply filter_ext. intros r. by destruct (p r).
Qed.

End FilterFacts.

Lemma filters_only_narrow_witness :
  sublist [timed_row] [timed_row; untimed_row]
  /\ (length [timed_row] <= length [timed_row; untimed_row])%nat.
Proof.
  apply (filters_only_narrow iso_basic _
           (with_date_start (PStr "2020-01-01") no_filters)).
  vm_compute. reflexivity.
Defined.

Lemma filters_idempotent_witness :
  apply_filters iso_basic [timed_row]
    (with_date_start (PStr "2020-01-01") no_filters)
  = Ret [timed_row].
Proof.
  apply (filters_idempotent iso_basic [timed_row; untimed_row]).
  vm_compute. reflexivity.
Defined.

(** ** What the clauses mean *)

Lemma lex_leb_refl l : lex_leb l l = true.
Proof.
  induction l as [|x l IH]; simpl; [done|].
  by rewrite Z.eqb_refl, IH, orb_true_r.
Qed.

Lemma dt_leb_refl t : dt_leb t t = true.
Proof. apply lex_leb_refl. Qed.

Lemma ts_ge_spec t r :
  ts_ge t r = true
  <-> exists ts, row_timestamp r = Some ts /\ dt_leb t ts = true.
Proof.
  unfold ts_ge. destruct (row_timestamp r) as [ts|].
  - split; [eauto|]. by intros (? & [= <-] & ?).
  - split; [done|]. by intros (? & ? & _).
Qed.

Lemma ts_le_spec t r :
  ts_le t r = true
  <-> exists ts, row_timestamp r = Some ts /\ dt_leb ts t = true.
Proof.
  unfold ts_le. destruct (row_timestamp r) as [ts|].
  - split; [eauto|]. by intros (? & [= <-] & ?).
  - split; [done|]. by intros (? & ? & _).
Qed.

Lemma is_empty_spec s : is_empty s = true <-> s = EmptyString.
Proof. by destruct s. Qed.

Lemma unless_empty s (b : bool) :
  is_empty s || b = true <-> (s <> EmptyString -> b = true).
Proof.
  destruct s; simpl; [by split|]. split; [done|]. intros H. by apply H.
Qed.

Lemma method_clause methods (r : Row) :
  match methods with
  | [] => true
  | m :: ms => existsb (String.eqb (row_method r)) (m :: ms)
  end = true
  <-> (methods <> [] -> In (row_method r) methods).
Proof.
  destruct methods as [|m ms]; [by split|].
  rewrite existsb_exists. split.
  - intros (x & Hin & Hx%String.eqb_eq) _. by rewrite Hx.
  - intros H. exists (row_method r). split; [by apply H|].
    apply String.eqb_refl.
Qed.

Lemma status_clause codes (r : Row) :
  match codes with
  | [] => true
  | c :: cs => combine (map status_condition (c :: cs)) r
  end = true
  <-> (codes <> [] ->
       exists c, In c codes /\ code_matches c (row_status r)).
Proof.
  destruct codes as [|c cs]; [by split|].
  rewrite (combine_spec (c :: cs) r) by done.
  split; [done|]. intros H. by apply H.
Qed.

Section FilterMeaning.
Variable fromisoformat : string -> option datetime.

Lemma date_clause_spec v cmp p r :
  date_clause fromisoformat v cmp = Ret p ->
  p r = true
  <-> forall s t, v = PStr s -> s <> EmptyString ->
                  fromisoformat s = Some t -> cmp t r = true.
Proof.
  unfold date_clause. destruct (truthy v) eqn:Hv.
  - destruct v as [|b|n|s|l]; simpl; try done.
    destruct (fromisoformat s) as [t|] eqn:Hs; simpl; intros [= <-].
    + split.
      * intros H s' t' [= <-] _ Ht. congruence.
      * intros H. apply (H s t); try done.
        intros ->. done.
    + split; [|done]. intros _ s' t' [= <-]. congruence.
  - intros [= <-]. split; [|done]. intros _ s t -> Hs.
    simpl in Hv. destruct s; done.
Qed.

Lemma size_clause_spec v cmp p r :
  size_clause v cmp = Ret p ->
  p r = true
  <-> forall n, truthy v = true -> py_int_of v = Ret n -> cmp n r = true.
Proof.
  unfold size_clause. destruct (truthy v) eqn:Hv.
  - destruct (py_int_of v) as [n|[]] eqn:Hn; simpl; try done;
      intros [= <-].
    + split; [by intros H n' _ [= <-] | intros H; by apply H].
    + by split.
  - intros [= <-]. by split.
Qed.

(** X15. The rows [apply_filters] keeps are the rows of the input that
    satisfy every clause of the specification at once: a timestamp that
    is present and not before the start bound, present and not after the
    end bound, for the date bounds that parse; an address and a path
    that contain the given texts; a status matched by some listed code;
    a method among the listed ones; a size within the size bounds.  A
    clause that is empty, or a bound that is missing or is a string that
    does not parse, asks nothing. *)
Theorem filters_keep_rows_of_all_clauses df f df' :
  apply_filters fromisoformat df f = Ret df' ->
  forall r,
    In r df'
    <-> In r df
        /\ (forall s t, date_start f = PStr s -> s <> EmptyString ->
              fromisoformat s = Some t ->
              exists ts, row_timestamp r = Some ts /\ dt_leb t ts = true)
        /\ (forall s t, date_end f = PStr s -> s <> EmptyString ->
              fromisoformat s = Some t ->
              exists ts, row_timestamp r = Some ts /\ dt_leb ts t = true)
        /\ (ipAddress f <> EmptyString ->
            contains (ipAddress f) (row_ip r) = true)
        /\ (urlPattern f <> EmptyString ->
            contains (urlPattern f) (row_path r) = true)
        /\ (statusCodes f <> [] ->
            exists c, In c (statusCodes f)
                      /\ code_matches c (row_status r))
        /\ (httpMethods f <> [] -> In (row_method r) (httpMethods f))
        /\ (forall n, truthy (size_min f) = true ->
              py_int_of (size_min f) = Ret n -> n <= row_size r)
        /\ (forall n, truthy (size_max f) = true ->
              py_int_of (size_max f) = Ret n -> row_size r <= n).
Proof.
  rewrite apply_filters_as_filter. unfold filter_predicate.
  destruct (date_clause _ (date_start f) _) as [p1|] eqn:H1; [|done].
  destruct (date_clause _ (date_end f) _) as [p2|] eqn:H2; [|done].
  destruct (size_clause (size_min f) _) as [p3|] eqn:H3; [|done].
  destruct (size_clause (size_max f) _) as [p4|] eqn:H4; [|done].
  simpl. intros [= <-] r. rewrite filter_In.
  unfold plain_clauses. rewrite !andb_true_iff.
  rewrite (date_clause_spec _ _ _ r H1), (date_clause_spec _ _ _ r H2).
  rewrite (size_clause_spec _ _ _ r H3), (size_clause_spec _ _ _ r H4).
  rewrite !unless_empty, status_clause, method_clause.
  setoid_rewrite ts_ge_spec. setoid_rewrite ts_le_spec.
  setoid_rewrite Z.leb_le. tauto.
Qed.

(** X16. The date bounds are inclusive: a record whose timestamp is the
    very instant given as start and as end bound is kept. *)
Theorem date_bounds_inclusive r s t :
  s <> EmptyString ->
  fromisoformat s = Some t ->
  row_timestamp r = Some t ->
  apply_filters fromisoformat [r]
    (with_date_end (PStr s) (with_date_start (PStr s) no_filters))
  = Ret [r].
Proof.
  intros Hs Ht Hr. unfold apply_filters. simpl.
  destruct s as [|a s]; [done|]. simpl. rewrite Ht. simpl.
  assert (ts_ge t r = true) as -> by (unfold ts_ge; by rewrite Hr, dt_leb_refl).
  simpl. assert (ts_le t r = true) as -> by (unfold ts_le; by rewrite Hr, dt_leb_refl).
  done.
Qed.
End FilterMeaning.

Lemma filters_keep_rows_of_all_clauses_witness :
  In timed_row [timed_row; untimed_row]
  /\ (forall s t, PStr "2020-01-01" = PStr s -> s <> EmptyString ->
        iso_basic s = Some t ->
        exists ts, row_timestamp timed_row = Some ts /\ dt_leb t ts = true).
Proof.
  assert (apply_filters iso_basic [timed_row; untimed_row]
            (with_date_start (PStr "2020-01-01") no_filters)
          = Ret [timed_row]) as H by (vm_compute; reflexivity).
  destruct (proj1 (filters_keep_rows_of_all_clauses iso_basic _ _ _ H
                     timed_row)) as (Hin & Hstart & _).
  - by left.
  - split; [exact Hin | exact Hstart].
Defined.

Lemma date_bounds_inclusive_witness :
  apply_filters iso_basic [timed_row]
    (with_date_end (PStr "2020-10-10T13:55:36")
       (with_date_start (PStr "2020-10-10T13:55:36") no_filters))
  = Ret [timed_row].
Proof.
  apply (date_bounds_inclusive iso_basic timed_row "2020-10-10T13:55:36"
           sample_instant).
  - discriminate.
  - vm_compute. reflexivity.
  - reflexivity.
Defined.

(** ** The distribution of status codes *)

Lemma count_key_sum k groups :
  sum_list (map snd (count_key k groups)) = S (sum_list (map snd groups)).
Proof.
  induction groups as [|[k' n] rest IH]; simpl; [done|].
  destruct (k <? k'); [done|]. destruct (k =? k'); simpl; [done|].
  rewrite IH. lia.
Qed.

Lemma count_key_positive k groups :
  Forall (fun g => (0 < g.2)%nat) groups ->
  Forall (fun g => (0 < g.2)%nat) (count_key k groups).
Proof.
  induction 1 as [|[k' n] rest Hn Hrest IH]; simpl.
  - repeat constructor.
  - destruct (k <? k'); [|destruct (k =? k')].
    + constructor; [simpl; lia|]. by constructor.
    + constructor; [simpl; lia | done].
    + by constructor.
Qed.

Lemma group_count_sum_positive keys :
  sum_list (map snd (group_count keys)) = length keys
  /\ Forall (fun g => (0 < g.2)%nat) (group_count keys).
Proof.
  unfold group_count. induction keys as [|k keys IH] using rev_ind.
  - split; [done | constructor].
  - destruct IH as [Hs Hp]. rewrite foldl_app. simpl. split.
    + rewrite count_key_sum, Hs, length_app. simpl. lia.
    + by apply count_key_positive.
Qed.

Lemma last_value_in groups k n :
  last_value groups k = Some n -> In (k, n) groups.
Proof.
  induction groups as [|[k' v] rest IH]; simpl; [done|].
  destruct (last_value rest k) as [v'|].
  - intros [= <-]. right. by apply IH.
  - destruct (Z.eqb_spec k k') as [->|]; [|done]. intros [= <-]. by left.
Qed.

Lemma in_last_value groups k n :
  ascending groups -> In (k, n) groups -> last_value groups k = Some n.
Proof.
  induction groups as [|[k' v] rest IH]; [done|].
  intros Hs Hin. rewrite last_value_cons by done.
  apply StronglySorted_inv in Hs as [Hrest Hall].
  destruct Hin as [[= -> ->] | Hin].
  - by rewrite Z.eqb_refl.
  - rewrite List.Forall_forall in Hall. pose proof (Hall _ Hin) as Hlt.
    simpl in Hlt. destruct (Z.eqb_spec k k'); [lia|]. by apply IH.
Qed.

Lemma occurrences_statuses df s :
  occurrences s (map row_status df) = rows_with_status s df.
Proof.
  unfold occurrences, rows_with_status.
  induction df as [|r df IH]; [done|].
  cbn [map List.filter]. rewrite (Z.eqb_sym s).
  destruct (row_status r =? s); simpl; by rewrite IH.
Qed.

Lemma occurrences_in k keys : In k keys -> (0 < occurrences k keys)%nat.
Proof.
  unfold occurrences. induction keys as [|k' keys IH]; [done|].
  intros [-> | Hin]; simpl.
  - rewrite Z.eqb_refl. simpl. lia.
  - destruct (k =? k'); simpl; [lia | by apply IH].
Qed.

(** X17. The status distribution lists the statuses that occur among the
    rows, each once, in ascending order; the count of a status is the
    number of rows that have it, never zero; and the counts add up to
    the number of rows. *)
Theorem status_distribution_exact df :
  StronglySorted (fun a b => sc_status a < sc_status b)
    (status_code_distribution df)
  /\ (forall sc, In sc (status_code_distribution df) ->
        sc_count sc = rows_with_status (sc_status sc) df
        /\ (0 < sc_count sc)%nat)
  /\ (forall r, In r df ->
        exists sc, In sc (status_code_distribution df)
                   /\ sc_status sc = row_status r)
  /\ sum_list (map sc_count (status_code_distribution df)) = length df.
Proof.
  unfold status_code_distribution.
  destruct (group_count_spec (map row_status df)) as [Hasc Hval].
  destruct (group_count_sum_positive (map row_status df)) as [Hsum Hpos].
  rewrite length_map in Hsum.
  set (groups := group_count (map row_status df)) in *.
  split; [|split; [|split]].
  - unfold ascending in Hasc. clearbody groups. clear -Hasc.
    induction Hasc as [|g rest Hs IH Hall]; simpl; constructor; [done|].
    apply Forall_map. eapply Forall_impl; [exact Hall|]. by intros b Hb.
  - intros sc Hin. apply in_map_iff in Hin as ([k n] & <- & Hin). simpl.
    split.
    + apply in_last_value in Hin; [|done].
      rewrite <- occurrences_statuses, <- Hval. by rewrite Hin.
    + rewrite List.Forall_forall in Hpos. apply (Hpos _ Hin).
  - intros r Hr.
    pose proof (occurrences_in (row_status r) (map row_status df)
                  (in_map row_status _ _ Hr)) as Hocc.
    rewrite <- Hval in Hocc.
    destruct (last_value groups (row_status r)) as [n|] eqn:Hl;
      [|simpl in Hocc; lia].
    apply last_value_in in Hl.
    exists (mk_status_count (row_status r) n). split; [|done].
    apply in_map_iff. by exists (row_status r, n).
  - rewrite map_map. simpl. exact Hsum.
Qed.

Lemma status_distribution_exact_witness :
  sc_count (mk_status_count 200 2)
  = rows_with_status 200 [status_row 404; status_row 200; status_row 200]
  /\ (0 < sc_count (mk_status_count 200 2))%nat.
Proof.
  destruct (status_distribution_exact
              [status_row 404; status_row 200; status_row 200])
    as (_ & H & _).
  apply (H (mk_status_count 200 2)). vm_compute. tauto.
Defined.

(** ** From parsed entries to rows *)

Lemma digit_char_not_Z d : Ascii.eqb (digit_char d) "Z" = false.
Proof.
  unfold digit_char.
  assert (0 <= d mod 10 < 10) as H by (apply Z.mod_pos_bound; lia).
  assert (d mod 10 = 0 \/ d mod 10 = 1 \/ d mod 10 = 2 \/ d mod 10 = 3
          \/ d mod 10 = 4 \/ d mod 10 = 5 \/ d mod 10 = 6 \/ d mod 10 = 7
          \/ d mod 10 = 8 \/ d mod 10 = 9) as Hd by lia.
  repeat destruct Hd as [Hd | Hd]; rewrite Hd; reflexivity.
Qed.

Lemma replace_char_absent c by_ s :
  has_char c s = false -> replace_char c by_ s = s.
Proof.
  induction s as [|a s IH]; simpl; [done|].
  intros H. apply orb_false_iff in H as [-> H]. by rewrite IH.
Qed.

Lemma pad2_no_Z n : has_char "Z" (pad2 n) = false.
Proof. unfold pad2. cbn [has_char]. by rewrite !digit_char_not_Z. Qed.

Lemma pad4_no_Z n : has_char "Z" (pad4 n) = false.
Proof.
  unfold pad4. cbn [has_char]. by rewrite !digit_char_not_Z, pad2_no_Z.
Qed.

Lemma isoformat_no_Z t : has_char "Z" (isoformat t) = false.
Proof.
  unfold isoformat. by rewrite !has_char_app, pad4_no_Z, !pad2_no_Z.
Qed.

Lemma dict_timestamp_iso fromisoformat t :
  fromisoformat (isoformat t) = Some t ->
  dict_timestamp fromisoformat (Some (isoformat t)) = Some t.
Proof.
  intros H. unfold dict_timestamp.
  rewrite replace_char_absent by apply isoformat_no_Z.
  assert (is_empty (isoformat t) = false) as -> by reflexivity.
  exact H.
Qed.

Lemma forallb_on_map {X Y} (f : X -> Y) (p : Y -> bool) l :
  forallb p (map f l) = forallb (fun x => p (f x)) l.
Proof. induction l as [|x l IH]; simpl; [done|]. by rewrite IH. Qed.

(** X18. The tuples [create_dataframe] builds from the dicts of
    [entry_to_dict] hold the address, method, path, protocol, status and
    size of the entries, one tuple per entry in the same order, and the
    timestamp too when [fromisoformat] reads what [isoformat] wrote.  The
    data frame is then made exactly when every status and size fits the
    32 bits of [LOG_SCHEMA], with the timestamps as the session stores
    them; an entry beyond that range, which the parser of delimited files
    does return, makes [create_dataframe] raise. *)
Theorem entries_to_rows fromisoformat stored entries :
  (forall e t, In e entries -> e_timestamp e = Some t ->
               fromisoformat (isoformat t) = Some t) ->
  map (data_tuple fromisoformat) (map entry_to_dict entries)
  = map row_of_entry entries
  /\ create_dataframe fromisoformat stored (map entry_to_dict entries)
     = if forallb entry_fits entries
       then Ret (map (fun e => stored_row stored (row_of_entry e)) entries)
       else Raise ValueError.
Proof.
  intros H.
  assert (map (data_tuple fromisoformat) (map entry_to_dict entries)
          = map row_of_entry entries) as Hdata.
  { rewrite map_map. apply map_ext_in. intros e He.
    unfold row_of_entry, data_tuple, entry_to_dict.
    cbn [d_ip d_timestamp d_method d_path d_protocol d_status d_size].
    f_equal. destruct (e_timestamp e) as [t|] eqn:Et; [|done].
    apply dict_timestamp_iso. by apply (H e). }
  split; [done|].
  unfold create_dataframe, createDataFrame. rewrite Hdata.
  rewrite forallb_on_map, map_map.
  change (fun x => fits_schema (row_of_entry x)) with entry_fits.
  by destruct (forallb entry_fits entries).
Qed.

Lemma entries_to_rows_witness :
  create_dataframe iso_basic id
    (map entry_to_dict
       [mk_entry "10.0.0.1" (Some sample_instant) "GET" "/" "HTTP/1.1" 200
          1024 "raw"])
  = Ret [timed_row]
  /\ parse_log_file iso_basic large_csv
     = Ret ([mk_entry "1.2.3.4" None "GET" "/a" "HTTP/1.1" 200 3000000000
               "1.2.3.4,/a,200,3000000000"], [])
  /\ create_dataframe iso_basic id
       (map entry_to_dict
          [mk_entry "1.2.3.4" None "GET" "/a" "HTTP/1.1" 200 3000000000
             "1.2.3.4,/a,200,3000000000"])
     = Raise ValueError.
Proof.
  split; [|split].
  - etrans.
    + apply (entries_to_rows iso_basic id
               [mk_entry "10.0.0.1" (Some sample_instant) "GET" "/"
                  "HTTP/1.1" 200 1024 "raw"]).
      intros e t [<- | []] [= <-]. vm_compute. reflexivity.
    + vm_compute. reflexivity.
  - vm_compute. reflexivity.
  - etrans.
    + apply (entries_to_rows iso_basic id
               [mk_entry "1.2.3.4" None "GET" "/a" "HTTP/1.1" 200 3000000000
                  "1.2.3.4,/a,200,3000000000"]).
      intros e t [<- | []]. discriminate.
    + vm_compute. reflexivity.
Defined.

(** * Further properties of the views *)

(** ** Pages of the preview *)

Lemma py_slice_window {A} (l : list A) (s n : nat) :
  py_slice l (Z.of_nat s) (Z.of_nat s + Z.of_nat n) = take n (drop s l).
Proof.
  unfold py_slice, clamp_index.
  destruct (Z.ltb_spec (Z.of_nat s) 0); [lia|].
  destruct (Z.ltb_spec (Z.of_nat s + Z.of_nat n) 0); [lia|].
  destruct (decide (length l <= s)%nat) as [Hle | Hgt].
  - rewrite (drop_ge l s) by done. rewrite take_nil.
    rewrite drop_ge by lia. by rewrite take_nil.
  - replace (Z.to_nat (Z.min (Z.of_nat s) (Z.of_nat (length l)))) with s
      by lia.
    destruct (decide (s + n <= length l)%nat).
    + f_equal. lia.
    + rewrite !take_ge; [done | rewrite length_drop; lia
                        | rewrite length_drop; lia].
Qed.

Lemma page_rows_window {A} (data : list A) (p limit : nat) :
  page_rows data (Z.of_nat (S p)) (Z.of_nat limit)
  = take limit (drop (p * limit) data).
Proof.
  unfold page_rows.
  replace ((Z.of_nat (S p) - 1) * Z.of_nat limit) with (Z.of_nat (p * limit))
    by lia.
  apply py_slice_window.
Qed.

Lemma pages_concat {A} (data : list A) (limit : nat) : forall k,
  concat (map (fun p => page_rows data p (Z.of_nat limit)) (pages_upto k))
  = take (k * limit) data.
Proof.
  unfold pages_upto. induction k as [|k IH].
  - by rewrite take_0.
  - rewrite seq_S, !map_app, concat_app, IH. simpl.
    rewrite app_nil_r, page_rows_window, take_take_drop. f_equal. lia.
Qed.

Lemma total_pages_cover {A} (data : list A) (limit : Z) :
  1 <= limit ->
  0 <= total_pages data limit
  /\ Z.of_nat (length data) <= total_pages data limit * limit
  /\ (total_pages data limit - 1) * limit < Z.of_nat (length data)
     \/ (data = [] /\ total_pages data limit = 0).
Proof.
  intros Hl. unfold total_pages.
  pose proof (Z.div_mod (Z.of_nat (length data) + limit - 1) limit
                ltac:(lia)) as Hdm.
  pose proof (Z.mod_pos_bound (Z.of_nat (length data) + limit - 1) limit
                ltac:(lia)) as Hm.
  destruct data as [|x data].
  - right. split; [done|]. simpl. apply Z.div_small. lia.
  - left. set (q := (Z.of_nat (length (x :: data)) + limit - 1) / limit) in *.
    set (r := (Z.of_nat (length (x :: data)) + limit - 1) mod limit) in *.
    assert (0 < Z.of_nat (length (x :: data))) by (simpl; lia).
    repeat split; nia.
Qed.

(** X19. For a limit of at least 1 the pages of the preview cut the data
    into consecutive pieces: the pages 1 to [totalPages], put end to
    end, are the data; no page is longer than the limit; and the pages
    after [totalPages] are empty.  A limit of 0 gives no answer but a
    division by zero. *)
Theorem preview_pages_partition {A} (data : list A) (limit : Z) :
  1 <= limit ->
  concat (map (fun p => page_rows data p limit)
            (pages_upto (Z.to_nat (total_pages data limit))))
  = data
  /\ (forall p, 1 <= p ->
        Z.of_nat (length (page_rows data p limit)) <= limit)
  /\ (forall p, total_pages data limit < p -> page_rows data p limit = [])
  /\ (forall p, preview_data data p limit
                = Some (mk_preview (page_rows data p limit)
                          (Z.of_nat (length data)) p limit
                          (total_pages data limit)))
  /\ (forall p, preview_data data p 0 = None).
Proof.
  intros Hl.
  assert (limit = Z.of_nat (Z.to_nat limit)) as Hn by lia.
  set (L := Z.to_nat limit) in *. clearbody L. subst limit.
  pose proof (total_pages_cover data (Z.of_nat L) Hl) as Hcover.
  split; [|split; [|split; [|split]]].
  - rewrite pages_concat. apply take_ge.
    destruct Hcover as [(H0 & Hc & _) | [-> ->]]; [|apply Nat.le_0_l].
    apply Nat2Z.inj_le. rewrite Nat2Z.inj_mul, Z2Nat.id by done. exact Hc.
  - intros p Hp.
    assert (p = Z.of_nat (S (Z.to_nat (p - 1)))) as -> by lia.
    rewrite page_rows_window, length_take. lia.
  - intros p Hp.
    assert (1 <= p) as Hp1
      by (destruct Hcover as [(H0 & _) | [_ H0]]; lia).
    assert (p = Z.of_nat (S (Z.to_nat (p - 1)))) as Hpn by lia.
    rewrite Hpn, page_rows_window.
    rewrite drop_ge; [apply take_nil|].
    destruct Hcover as [(H0 & Hc & _) | [-> _]]; [|apply Nat.le_0_l].
    apply Nat2Z.inj_le. rewrite Nat2Z.inj_mul, Z2Nat.id by lia. nia.
  - intros p. unfold preview_data.
    destruct (Z.eqb_spec (Z.of_nat L) 0); [lia | done].
  - done.
Qed.

Lemma preview_pages_partition_witness :
  concat (map (fun p => page_rows [1; 2; 3; 4; 5] p 2)
            (pages_upto (Z.to_nat (total_pages [1; 2; 3; 4; 5] 2))))
  = [1; 2; 3; 4; 5].
Proof.
  destruct (preview_pages_partition [1; 2; 3; 4; 5] 2) as [H _]; [lia|].
  exact H.
Defined.

(** ** What an upload is answered *)

Lemma diagnostics_from_shape i lines :
  Forall (fun m => exists j l, m = unable_to_parse j l)
    (diagnostics_from i lines).
Proof.
  revert i. induction lines as [|l lines IH]; intros i; simpl.
  - constructor.
  - constructor; [by eexists _, _ | apply IH].
Qed.

Section UploadFacts.
Variable fromisoformat : string -> option datetime.

Lemma empty_file_only_for_blank content es errs :
  parse_log_file fromisoformat content = Ret (es, errs) ->
  In "Empty file" errs ->
  str_all is_space content = true.
Proof.
  rewrite <- nonblank_lines_nil. unfold parse_log_file.
  destruct (nonblank_lines content) as [|first rest] eqn:El; [done|].
  intros Hp Hin. exfalso.
  assert (Forall (fun m => m <> "Empty file") errs) as Hall.
  { destruct (detect_csv_format first).
    - unfold parse_csv_file in Hp. case_match.
      + injection Hp as <- <-. by repeat constructor.
      + apply csv_rows_errors in Hp as (more & -> & Hm). simpl.
        eapply Forall_impl; [exact Hm|]. intros m (j & l & ->).
        apply unable_to_parse_not_empty_file.
    - rewrite log_lines_outcome in Hp.
      destruct (existsb matches_combined (first :: rest)); [done|].
      injection Hp as <- <-.
      eapply Forall_impl;
        [apply (diagnostics_from_shape 1 (first :: rest))|].
      intros m (j & l & ->). apply unable_to_parse_not_empty_file. }
  rewrite List.Forall_forall in Hall. by apply (Hall _ Hin).
Qed.

(** X20. An upload goes on to be stored only when its first line that is
    not blank is detected as delimited and the parser returned at least
    one record: a file that is read line by line is always answered
    with an error. *)
Theorem upload_accepts_only_delimited content es errs :
  upload_decision fromisoformat content = Parsed es errs ->
  es <> []
  /\ parse_log_file fromisoformat content = Ret (es, errs)
  /\ exists first rest, nonblank_lines content = first :: rest
                        /\ detect_csv_format first = true.
Proof.
  unfold upload_decision.
  destruct (is_empty content); [done|].
  destruct (is_empty (strip content)); [done|].
  destruct (_ <? _); [done|].
  destruct (parse_log_file fromisoformat content) as [[es' errs']|] eqn:Hp;
    [|done].
  destruct es' as [|e es']; [done|]. intros [= <- <-].
  split; [done|]. split; [done|].
  unfold parse_log_file in Hp.
  destruct (nonblank_lines content) as [|first rest] eqn:El; [done|].
  exists first, rest. split; [done|].
  destruct (detect_csv_format first); [done|].
  rewrite log_lines_outcome in Hp.
  by destruct (existsb matches_combined (first :: rest)).
Qed.

(** X21. A blank upload is turned down before the parser is called, so
    the [Empty file] diagnostic of the parser is never among the details
    an upload is answered with. *)
Theorem upload_never_reports_empty_file content :
  (str_all is_space content = true ->
   exists error, upload_decision fromisoformat content = Rejected error)
  /\ (forall details,
        upload_decision fromisoformat content = NoValidEntries details ->
        ~ In "Empty file" details).
Proof.
  unfold upload_decision. split.
  - intros Hb. destruct (is_empty content); [eauto|].
    apply strip_blank in Hb. rewrite Hb. eauto.
  - intros details.
    destruct (is_empty content); [done|].
    destruct (is_empty (strip content)) eqn:Hs; [done|].
    destruct (_ <? _); [done|].
    destruct (parse_log_file fromisoformat content) as [[es errs]|] eqn:Hp;
      [|done].
    destruct es as [|e es]; [|done]. intros [= <-] Hin.
    assert (In "Empty file" errs) as Hin'.
    { destruct errs as [|m errs]; [by destruct Hin as [|[]]|].
      apply list_elem_of_In, (subseteq_take 10), list_elem_of_In.
      exact Hin. }
    apply (empty_file_only_for_blank _ _ _ Hp) in Hin'.
    apply strip_blank in Hin'. congruence.
Qed.
End UploadFacts.

Lemma upload_accepts_only_delimited_witness :
  exists first rest, nonblank_lines sample_csv = first :: rest
                     /\ detect_csv_format first = true.
Proof.
  assert (upload_decision iso_basic sample_csv
          = Parsed [mk_entry "1.2.3.4" None "GET" "/a" "HTTP/1.1" 200 500
                      "1.2.3.4,/a,200,500"] []) as H
    by (vm_compute; reflexivity).
  destruct (upload_accepts_only_delimited iso_basic _ _ _ H) as (_ & _ & Hx).
  exact Hx.
Defined.

Lemma upload_never_reports_empty_file_witness :
  exists error,
    upload_decision iso_basic (" " ++ String newline " ") = Rejected error.
Proof.
  apply (proj1 (upload_never_reports_empty_file iso_basic _)). reflexivity.
Defined.
